(** * j1tfyi-portal: the edge server of [main.ts]

    A shallow embedding of the fixed-window rate limiter, the chain
    look-ups, the widget configuration document, the compression adapter
    and the request handler of [src/main.ts], followed by the properties
    proved about them.

    Conventions.
    - JavaScript numbers that hold counters and millisecond timestamps are
      integers far below 2^53; they are modelled as [Z], exactly.
    - [Date.now()] is an input: every function that reads the clock takes
      the value it reads as an argument.
    - [rateLimitStore], a [Map<string, {count, timestamp}>], is a
      [gmap string ClientWindow] threaded through the functions that
      mutate it. *)

From Stdlib Require Import ZArith NArith String Ascii Strings.Byte List Lia Bool.
From stdpp Require Import gmap strings list fin_maps pretty.

Open Scope Z_scope.

(* ===================================================================== *)
(** * Part I: definitions                                                 *)
(* ===================================================================== *)

(** ** Constants (main.ts, lines 6-24) *)

Definition STATIC_CACHE_MAX_AGE : Z := 31536000.
Definition DYNAMIC_CACHE_MAX_AGE : Z := 3600.

Definition RATE_LIMIT : Z := 50.
Definition RATE_WINDOW : Z := 30000.

(** ** Rate limiter (main.ts, lines 12 and 27-68) *)

(** The value type of [rateLimitStore]. *)
Record ClientWindow := mkWindow { count : Z; timestamp : Z }.

(** The object returned by [checkRateLimit]. *)
Record RateLimitInfo := mkInfo { allowed : bool; remaining : Z; reset : Z }.

Abbreviation Store := (gmap string ClientWindow).

(** [checkRateLimit(ip)], with the clock value [now] read on its first
    line.  The third branch mutates the stored object in place
    ([userRateLimit.count++]) and stores it again under the same key: the
    entry keeps its timestamp and its count grows by one. *)
Definition checkRateLimit (now : Z) (ip : string) (st : Store)
  : RateLimitInfo * Store :=
  match st !! ip with
  | None =>
      (mkInfo true (RATE_LIMIT - 1) (now + RATE_WINDOW),
       <[ip := mkWindow 1 now]> st)
  | Some userRateLimit =>
      if bool_decide (now - timestamp userRateLimit > RATE_WINDOW) then
        (mkInfo true (RATE_LIMIT - 1) (now + RATE_WINDOW),
         <[ip := mkWindow 1 now]> st)
      else if bool_decide (count userRateLimit >= RATE_LIMIT) then
        (mkInfo false 0 (timestamp userRateLimit + RATE_WINDOW), st)
      else
        let bumped :=
          mkWindow (count userRateLimit + 1) (timestamp userRateLimit) in
        (mkInfo true (RATE_LIMIT - count bumped)
                (timestamp bumped + RATE_WINDOW),
         <[ip := bumped]> st)
  end.

(** The body of the [setInterval] callback: visit every entry of the map
    and delete the ones older than the window. *)
Definition sweep (now : Z) (st : Store) : Store :=
  map_fold
    (fun ip data acc =>
       if bool_decide (now - timestamp data > RATE_WINDOW)
       then delete ip acc else acc)
    st st.

(** What happens to the limiter between two points in time: calls of
    [checkRateLimit] and firings of the sweep timer. *)
Inductive event :=
| Call (now : Z) (ip : string)
| Sweep (now : Z).

Definition event_time (e : event) : Z :=
  match e with Call now _ => now | Sweep now => now end.

(** Run a trace of events; the decisions of the calls are collected in
    order. *)
Fixpoint run (evs : list event) (st : Store) : list RateLimitInfo * Store :=
  match evs with
  | [] => ([], st)
  | Call now ip :: evs' =>
      let '(d, st1) := checkRateLimit now ip st in
      let '(ds, st2) := run evs' st1 in
      (d :: ds, st2)
  | Sweep now :: evs' => run evs' (sweep now st)
  end.

(** The same trace with the timer switched off. *)
Fixpoint without_sweeps (evs : list event) : list event :=
  match evs with
  | [] => []
  | Call now ip :: evs' => Call now ip :: without_sweeps evs'
  | Sweep _ :: evs' => without_sweeps evs'
  end.

(** ** Widget helper functions (main.ts, lines 15-24 and 71-89) *)

Definition DEBRIDGE_REFERRAL_CODE : string := "31021".
Definition JUPITER_REFERRAL_PUBKEY : string :=
  "FP5JGryFjTNdYustodtw9zLV31fdds5vvieW7TYzP8VJ".
Definition JUPITER_REFERRAL_LINK : string :=
  "https://jup.ag/?referrer=FP5JGryFjTNdYustodtw9zLV31fdds5vvieW7TYzP8VJ&feeBps=100".
Definition SOLANA_PUBLIC_KEY : string :=
  "FWBUqaHuaRPpN4BsbcP255RVUezvf67n2zYGY6SrZfzZ".
Definition EVM_RECIPIENT : string :=
  "0xe83A14f6eae56B0b30465B48a2DE75B2DF895223".

Module SUPPORTED_CHAINS.
Definition EVM : list Z := [1; 10; 56; 137; 8453; 42161; 43114].
Definition SOLANA : list Z := [7565164].
End SUPPORTED_CHAINS.

(** [Array.prototype.includes] on an array of integers. *)
Definition includes (xs : list Z) (x : Z) : bool :=
  existsb (fun y => bool_decide (y = x)) xs.

(** A JavaScript [Error] object, as far as the program looks at it. *)
Inductive Error := mkError (message : string).

(** The result of a function that returns a [T] or throws. *)
Inductive completion (T : Type) :=
| Return (value : T)
| Throw (err : Error).
Arguments Return {T} value.
Arguments Throw {T} err.

(** [Number.prototype.toString] (also what a template literal applies) on
    an integer: its decimal digits, with a minus sign when negative. *)
Definition toString (n : Z) : string := pretty n.

Definition getAffiliateFeeRecipient (inputChain : Z) : completion string :=
  if includes SUPPORTED_CHAINS.SOLANA inputChain then Return SOLANA_PUBLIC_KEY
  else if includes SUPPORTED_CHAINS.EVM inputChain then Return EVM_RECIPIENT
  else Throw (mkError ("Unsupported chain ID: " +:+ toString inputChain)).

Definition getReferralKey (inputChain : Z) : completion string :=
  if includes SUPPORTED_CHAINS.SOLANA inputChain then
    Return JUPITER_REFERRAL_PUBKEY
  else if includes SUPPORTED_CHAINS.EVM inputChain then
    Return DEBRIDGE_REFERRAL_CODE
  else Throw (mkError ("Unsupported chain ID: " +:+ toString inputChain)).

(** ** Strings (the [String.prototype] methods the handler uses) *)

Definition toLowerCase_char (c : ascii) : ascii :=
  let n := N_of_ascii c in
  if (65 <=? n)%N && (n <=? 90)%N then ascii_of_N (n + 32) else c.

(** Header names are ASCII; [toLowerCase] is the byte-wise lowering that
    the [Headers] class applies to them. *)
Fixpoint toLowerCase (s : string) : string :=
  match s with
  | EmptyString => EmptyString
  | String c s' => String (toLowerCase_char c) (toLowerCase s')
  end.

(** [s.startsWith(p)] *)
Fixpoint startsWith (s p : string) : bool :=
  match p, s with
  | EmptyString, _ => true
  | String _ _, EmptyString => false
  | String c p', String d s' => bool_decide (c = d) && startsWith s' p'
  end.

(** [s.includes(needle)] *)
Fixpoint str_includes (s needle : string) : bool :=
  startsWith s needle ||
  match s with
  | EmptyString => false
  | String _ s' => str_includes s' needle
  end.

(** [s] matches [/suffix$/] for a literal [suffix]. *)
Definition endsWith (s suffix : string) : bool :=
  startsWith (String.rev s) (String.rev suffix).

(** [s.split(',')[0]]: the text before the first comma. *)
Fixpoint split_comma_first (s : string) : string :=
  match s with
  | EmptyString => EmptyString
  | String c s' =>
      if bool_decide (c = ","%char) then EmptyString
      else String c (split_comma_first s')
  end.

(** Truthiness of a string in [a || b]. *)
Definition truthy (s : string) : bool := negb (bool_decide (s = EmptyString)).

(** ** The [Headers] class

    A header list keyed by the lower-cased name: [get] and [set] ignore
    the case of the name, [set] replaces the value, [append] joins a
    second value with a comma. *)

Abbreviation Headers := (gmap string string).

Definition headers_get (name : string) (h : Headers) : option string :=
  h !! toLowerCase name.

Definition headers_set (name value : string) (h : Headers) : Headers :=
  <[toLowerCase name := value]> h.

Definition headers_append (name value : string) (h : Headers) : Headers :=
  match h !! toLowerCase name with
  | Some old => <[toLowerCase name := old +:+ ", " +:+ value]> h
  | None => <[toLowerCase name := value]> h
  end.

(** [new Headers({...})] from the entries of an object literal. *)
Definition new_Headers (init : list (string * string)) : Headers :=
  foldl (fun h kv => headers_append kv.1 kv.2 h) ∅ init.

(** ** UTF-8 ([Response.text()] and [TextEncoder.encode])

    A JavaScript string that comes out of a decoder is a sequence of
    Unicode scalar values; it is modelled as the list of its code points.
    The decoder is the one of the Encoding Standard: malformed input is
    replaced by U+FFFD, a leading byte order mark is dropped. *)

Module Utf8.

Record decoder := mkDecoder {
  code_point : N;
  bytes_seen : N;
  bytes_needed : N;
  lower_boundary : N;
  upper_boundary : N }.

Definition initial : decoder := mkDecoder 0 0 0 0x80 0xBF.

Definition REPLACEMENT : N := 0xFFFD.

(** A byte read while no sequence is open: the code points it emits and
    the decoder state it leaves. *)
Definition lead (b : N) : list N * decoder :=
  (if b <=? 0x7F then ([b], initial)
   else if (0xC2 <=? b) && (b <=? 0xDF) then
     ([], mkDecoder (N.land b 0x1F) 0 1 0x80 0xBF)
   else if (0xE0 <=? b) && (b <=? 0xEF) then
     ([], mkDecoder (N.land b 0xF) 0 2
            (if b =? 0xE0 then 0xA0 else 0x80)
            (if b =? 0xED then 0x9F else 0xBF))
   else if (0xF0 <=? b) && (b <=? 0xF4) then
     ([], mkDecoder (N.land b 0x7) 0 3
            (if b =? 0xF0 then 0x90 else 0x80)
            (if b =? 0xF4 then 0x8F else 0xBF))
   else ([REPLACEMENT], initial))%N.

Fixpoint decode_from (d : decoder) (bytes : list N) : list N :=
  match bytes with
  | [] => if (bytes_needed d =? 0)%N then [] else [REPLACEMENT]
  | b :: rest =>
      if (bytes_needed d =? 0)%N then
        let '(out, d') := lead b in out ++ decode_from d' rest
      else if ((lower_boundary d <=? b) && (b <=? upper_boundary d))%N then
        let cp := N.lor (N.shiftl (code_point d) 6) (N.land b 0x3F) in
        let seen := (bytes_seen d + 1)%N in
        if (seen =? bytes_needed d)%N then cp :: decode_from initial rest
        else decode_from (mkDecoder cp seen (bytes_needed d) 0x80 0xBF) rest
      else
        (* the sequence is broken: emit U+FFFD and read [b] again with
           a fresh decoder *)
        let '(out, d') := lead b in
        REPLACEMENT :: out ++ decode_from d' rest
  end.

Definition strip_BOM (bytes : list N) : list N :=
  match bytes with
  | 0xEF :: 0xBB :: 0xBF :: rest => rest
  | _ => bytes
  end%N.

(** "UTF-8 decode": what [Response.text()] applies to the body. *)
Definition decode (bytes : list byte) : list N :=
  decode_from initial (strip_BOM (map Byte.to_N bytes)).

Definition byte_of_N (n : N) : byte :=
  match Byte.of_N n with Some b => b | None => Byte.x00 end.

Definition encode_code_point (cp : N) : list byte :=
  map byte_of_N
    (if cp <? 0x80 then [cp]
     else if cp <? 0x800 then
       [N.lor 0xC0 (N.shiftr cp 6); N.lor 0x80 (N.land cp 0x3F)]
     else if cp <? 0x10000 then
       [N.lor 0xE0 (N.shiftr cp 12);
        N.lor 0x80 (N.land (N.shiftr cp 6) 0x3F);
        N.lor 0x80 (N.land cp 0x3F)]
     else
       [N.lor 0xF0 (N.shiftr cp 18);
        N.lor 0x80 (N.land (N.shiftr cp 12) 0x3F);
        N.lor 0x80 (N.land (N.shiftr cp 6) 0x3F);
        N.lor 0x80 (N.land cp 0x3F)])%N.

(** [new TextEncoder().encode(s)] *)
Definition encode (s : list N) : list byte :=
  concat (map encode_code_point s).

(** The code points of a string literal of the source (all ASCII). *)
Definition of_literal (s : string) : list N :=
  map (fun b => Byte.to_N b) (String.list_byte_of_string s).

End Utf8.

(** ** JSON values and [JSON.stringify] *)

(** The values that occur in the configuration object.  The fields of an
    object are listed in property-enumeration order; the source writes its
    integer-like keys in ascending order, which is also their enumeration
    order. *)
#[local] Unset Elimination Schemes.
Inductive json :=
| JString (s : string)
| JNumber (n : Z)
| JBool (b : bool)
| JArray (elements : list json)
| JObject (fields : list (string * json)).
#[local] Set Elimination Schemes.

Definition hex_digit (n : N) : ascii :=
  ascii_of_N (if (n <? 10)%N then 48 + n else 87 + n).

(** One character of a string under [QuoteJSONString]. *)
Definition quote_char (c : ascii) : string :=
  let n := N_of_ascii c in
  if (n =? 8)%N then "\b"
  else if (n =? 9)%N then "\t"
  else if (n =? 10)%N then "\n"
  else if (n =? 12)%N then "\f"
  else if (n =? 13)%N then "\r"
  else if (n =? 34)%N then String "\"%char (String "034"%char EmptyString)
  else if (n =? 92)%N then "\\"
  else if (n <? 32)%N then
    "\u00" +:+ String (hex_digit (n / 16)) (String (hex_digit (n mod 16)) EmptyString)
  else String c EmptyString.

Fixpoint quote_chars (s : string) : string :=
  match s with
  | EmptyString => EmptyString
  | String c s' => quote_char c +:+ quote_chars s'
  end.

Definition QuoteJSONString (s : string) : string :=
  String "034"%char (quote_chars s +:+ String "034"%char EmptyString).

Fixpoint join_comma (parts : list string) : string :=
  match parts with
  | [] => EmptyString
  | [p] => p
  | p :: rest => p +:+ "," +:+ join_comma rest
  end.

(** [JSON.stringify(value)] without indentation. *)
Fixpoint JSON_stringify (value : json) : string :=
  match value with
  | JString s => QuoteJSONString s
  | JNumber n => toString n
  | JBool b => if b then "true" else "false"
  | JArray elements =>
      "[" +:+ join_comma (map JSON_stringify elements) +:+ "]"
  | JObject fields =>
      "{" +:+
      join_comma
        (map (fun kv => match kv with
                        | (k, v) => QuoteJSONString k +:+ ":" +:+ JSON_stringify v
                        end) fields)
      +:+ "}"
  end.

(** ** The widget configuration object (main.ts, lines 92-261) *)

(** The object literal passed to the inner [JSON.stringify]. *)
Definition supportedChains_table : json :=
  JObject [
    ("inputChains", JObject [
       ("1", JArray [
          JString EmptyString;
          JString "0xdac17f958d2ee523a2206206994597c13d831ec7";
          JString "0xa0b86991c6218b36c1d19d4a2e9eb0ce3606eb48";
          JString "0x6b175474e89094c44da98b954eedeac495271d0f";
          JString "0xc02aaa39b223fe8d0a0e5c4f27ead9083c756cc2"]);
       ("10", JArray [
          JString EmptyString;
          JString "0x4200000000000000000000000000000000000042";
          JString "0x94b008aa00579c1307b0ef2c499ad98a8ce58e58";
          JString "0x0b2c639c533813f4aa9d7837caf62653d097ff85";
          JString "0xda10009cbd5d07dd0cecc66161fc93d7c9000da1";
          JString "0x4200000000000000000000000000000000000006"]);
       ("56", JArray [
          JString EmptyString;
          JString "0x55d398326f99059ff775485246999027b3197955";
          JString "0x8ac76a51cc950d9822d68b83fe1ad97b32cd580d";
          JString "0x1af3f329e8be154074d8769d1ffa4ee058b1dbc3";
          JString "0xbb4cdb9cbd36b01bd1cbaebf2de08d9173bc095c"]);
       ("137", JArray [
          JString EmptyString;
          JString "0xc2132d05d31c914a87c6611c10748aeb04b58e8f";
          JString "0x3c499c542cef5e3811e1192ce70d8cc03d5c3359";
          JString "0x8f3cf7ad23cd3cadbd9735aff958023239c6a063";
          JString "0x7ceb23fd6bc0add59e62ac25578270cff1b9f619"]);
       ("8453", JArray [
          JString EmptyString;
          JString "0xfde4c96c8593536e31f229ea8f37b2ada2699bb2";
          JString "0x833589fcd6edb6e08f4c7c32d4f71b54bda02913";
          JString "0x50c5725949a6f0c72e6c4a641f24049a917db0cb";
          JString "0x4200000000000000000000000000000000000006";
          JString "0x506beb7965fc7053059006c7ab4c62c02c2d989f"]);
       ("42161", JArray [
          JString EmptyString;
          JString "0x912ce59144191c1204e64559fe8253a0e49e6548";
          JString "0xfd086bc7cd5c481dcc9c85ebe478a1c0b69fcbb9";
          JString "0xaf88d065e77c8cc2239327c5edb3a432268e5831";
          JString "0xda10009cbd5d07dd0cecc66161fc93d7c9000da1"]);
       ("43114", JArray [
          JString EmptyString;
          JString "0x9702230a8ea53601f5cd2dc00fdbc13d4df4a8c7";
          JString "0xb97ef9ef8734c71904d8002f8b6bc66dd9c48a6e";
          JString "0xd586e7f844cea2f87f50152665bcbc2c279d8d70";
          JString "0xb31f66aa3c1e785363f0875a1b74e27b85fd66c7"]);
       ("7565164", JArray [
          JString EmptyString;
          JString "So11111111111111111111111111111111111111112";
          JString "HAqD46mR4LgY3aJiMZSabfefZoysG3Uuj6wn2ZKYE14v";
          JString "Es9vMFrzaCERmJfrF4H2FYD4KCoNkY11McCe8BenwNYB";
          JString "EPjFWdd5AufqSSqeM2qN1xzybapC8G4wEGGkZwyTDt1v"])]);
    ("outputChains", JObject [
       ("1", JArray [
          JString EmptyString;
          JString "0xdac17f958d2ee523a2206206994597c13d831ec7";
          JString "0xa0b86991c6218b36c1d19d4a2e9eb0ce3606eb48";
          JString "0x6b175474e89094c44da98b954eedeac495271d0f";
          JString "0xc02aaa39b223fe8d0a0e5c4f27ead9083c756cc2"]);
       ("10", JArray [
          JString EmptyString;
          JString "0x4200000000000000000000000000000000000042";
          JString "0x94b008aa00579c1307b0ef2c499ad98a8ce58e58";
          JString "0x0b2c639c533813f4aa9d7837caf62653d097ff85";
          JString "0xda10009cbd5d07dd0cecc66161fc93d7c9000da1";
          JString "0x4200000000000000000000000000000000000006"]);
       ("56", JArray [
          JString EmptyString;
          JString "0x55d398326f99059ff775485246999027b3197955";
          JString "0x8ac76a51cc950d9822d68b83fe1ad97b32cd580d";
          JString "0x1af3f329e8be154074d8769d1ffa4ee058b1dbc3";
          JString "0xbb4cdb9cbd36b01bd1cbaebf2de08d9173bc095c"]);
       ("137", JArray [
          JString EmptyString;
          JString "0xc2132d05d31c914a87c6611c10748aeb04b58e8f";
          JString "0x3c499c542cef5e3811e1192ce70d8cc03d5c3359";
          JString "0x8f3cf7ad23cd3cadbd9735aff958023239c6a063";
          JString "0x7ceb23fd6bc0add59e62ac25578270cff1b9f619"]);
       ("8453", JArray [
          JString EmptyString;
          JString "0xfde4c96c8593536e31f229ea8f37b2ada2699bb2";
          JString "0x833589fcd6edb6e08f4c7c32d4f71b54bda02913";
          JString "0x50c5725949a6f0c72e6c4a641f24049a917db0cb";
          JString "0x4200000000000000000000000000000000000006";
          JString "0x506beb7965fc7053059006c7ab4c62c02c2d989f"]);
       ("42161", JArray [
          JString EmptyString;
          JString "0x912ce59144191c1204e64559fe8253a0e49e6548";
          JString "0xfd086bc7cd5c481dcc9c85ebe478a1c0b69fcbb9";
          JString "0xaf88d065e77c8cc2239327c5edb3a432268e5831";
          JString "0xda10009cbd5d07dd0cecc66161fc93d7c9000da1"]);
       ("43114", JArray [
          JString EmptyString;
          JString "0x9702230a8ea53601f5cd2dc00fdbc13d4df4a8c7";
          JString "0xb97ef9ef8734c71904d8002f8b6bc66dd9c48a6e";
          JString "0xd586e7f844cea2f87f50152665bcbc2c279d8d70";
          JString "0xb31f66aa3c1e785363f0875a1b74e27b85fd66c7"]);
       ("7565164", JArray [
          JString EmptyString;
          JString "So11111111111111111111111111111111111111112";
          JString "HAqD46mR4LgY3aJiMZSabfefZoysG3Uuj6wn2ZKYE14v";
          JString "Es9vMFrzaCERmJfrF4H2FYD4KCoNkY11McCe8BenwNYB";
          JString "EPjFWdd5AufqSSqeM2qN1xzybapC8G4wEGGkZwyTDt1v"])])].

Definition build_WIDGET_CONFIG : completion json :=
  match getReferralKey 1 with
  | Throw e => Throw e
  | Return r =>
  match getAffiliateFeeRecipient 1 with
  | Throw e => Throw e
  | Return affiliateFeeRecipient =>
  Return (JObject [
    ("v", JString "1");
    ("element", JString "debridgeWidget");
    ("title", JString "J1T.FYI Bridge Gate");
    ("description", JString "Just One Token, Just One Gate");
    ("width", JString "600");
    ("height", JString "800");
    ("inputChain", JNumber 1);
    ("outputChain", JNumber 7565164);
    ("inputCurrency", JString EmptyString);
    ("outputCurrency", JString "HAqD46mR4LgY3aJiMZSabfefZoysG3Uuj6wn2ZKYE14v");
    ("address", JString EmptyString);
    ("showSwapTransfer", JBool true);
    ("amount", JString EmptyString);
    ("outputAmount", JString EmptyString);
    ("isAmountFromNotModifiable", JBool false);
    ("isAmountToNotModifiable", JBool false);
    ("lang", JString "en");
    ("mode", JString "deswap");
    ("isEnableCalldata", JBool false);
    ("styles", JString "eyJhcHBCYWNrZ3JvdW5kIjoiIzQ3NDY0NiIsIm1vZGFsQmciOiIjMDAwMDAwIiwiY2hhcnRCZyI6IiMwMDAwMDAiLCJib3JkZXJDb2xvciI6IiMwMDAwMDAiLCJ0b29sdGlwQmciOiIjMDAwMDAwIiwiZm9ybUNvbnRyb2xCZyI6IiMwMjAyMDIiLCJjb250cm9sQm9yZGVyIjoiIzc0NzQ3NCIsInByaW1hcnkiOiIjMDAwMDAwIiwic2Vjb25kYXJ5IjoiIzQ3NDY0NiIsInN1Y2Nlc3MiOiIjMDA2NDA3IiwiZXJyb3IiOiIjY2QwMTAxIiwid2FybmluZyI6IiNlNGU3MDMiLCJmb250Q29sb3IiOiIjRkZGRkZGIiwiZm9udEZhbWlseSI6IkF1ZGlvd2lkZSIsInByaW1hcnlCdG5CZyI6IiM4MzAyMDIiLCJwcmltYXJ5QnRuQmdIb3ZlciI6IiMwYTBhMGEiLCJwcmltYXJ5QnRuVGV4dCI6IiNkNGQ0ZDQiLCJzZWNvbmRhcnlCdG5CZyI6IiM0NzQ2NDYiLCJzZWNvbmRhcnlCdG5CZ0hvdmVyIjoiI2NkNjgwMSIsInNlY29uZGFyeUJ0blRleHQiOiIjZDRkNGQ0Iiwic2Vjb25kYXJ5QnRuT3V0bGluZSI6IiMwYTBhMGEiLCJidG5Gb250V2VpZ2h0Ijo5MDAsImNoYWluQnRuQmciOiIjMDAwMDAwIiwiY2hhaW5CdG5CZ0FjdGl2ZSI6IiMwYzBiMGIiLCJjaGFpbkJ0blBhZGRpbmciOiIyMCJ9");
    ("modalBg", JString "#000000");
    ("chartBg", JString "#000000");
    ("borderColor", JString "#000000");
    ("tooltipBg", JString "#000000");
    ("formControlBg", JString "#020202");
    ("controlBorder", JString "#747474");
    ("primary", JString "#000000");
    ("secondary", JString "#474646");
    ("success", JString "#006407");
    ("error", JString "#cd0101");
    ("warning", JString "#e4e703");
    ("fontColor", JString "#8f8f8f");
    ("fontFamily", JString "Audiowide");
    ("theme", JString "dark");
    ("isHideLogo", JBool false);
    ("logo", JString EmptyString);
    ("r", JString r);
    ("affiliateFeeRecipient", JString affiliateFeeRecipient);
    ("affiliateFeePercent", JString "1");
    ("jupiterRefLink", JString JUPITER_REFERRAL_LINK);
    ("jupiterRefPubkey", JString JUPITER_REFERRAL_PUBKEY);
    ("supportedChains", JString (JSON_stringify supportedChains_table))])
  end end.

(** [WIDGET_CONFIG] is built once, when the module is loaded, before the
    server starts; [build_WIDGET_CONFIG] returns (see
    [build_WIDGET_CONFIG_returns]), and this is the object it returns. *)
Definition WIDGET_CONFIG : json :=
  match build_WIDGET_CONFIG with
  | Return config => config
  | Throw _ => JObject []
  end.

(** ** Requests and responses *)

(** What the handler reads of a [Request]: the path of [new URL(req.url)]
    and the headers. *)
Record Request := mkRequest {
  method : string;
  pathname : string;
  req_headers : Headers }.

(** A [Response]: status, headers and the bytes of the body. *)
Record Response := mkResponse {
  status : Z;
  headers : Headers;
  body : list byte }.

(** [response.ok] *)
Definition ok (r : Response) : bool :=
  bool_decide (200 <= status r) && bool_decide (status r <= 299).

(** [new Response(text, {status, headers})] for a string body: the body is
    the UTF-8 encoding of the string, and a response built from a string
    gets the content type of plain text unless the headers name one. *)
Definition new_Response (text : list N) (st : Z) (h : Headers) : Response :=
  mkResponse st
    (match headers_get "Content-Type" h with
     | Some _ => h
     | None => headers_append "Content-Type" "text/plain;charset=UTF-8" h
     end)
    (Utf8.encode text).

(** [new Response(bytes, {status, headers})] for a [Uint8Array] body. *)
Definition new_Response_bytes (bytes : list byte) (st : Z) (h : Headers)
  : Response :=
  mkResponse st h bytes.

(** [response.text()] *)
Definition text (r : Response) : list N := Utf8.decode (body r).

(** [Math.ceil(x / d)] for integers [x] and a positive integer [d]. *)
Definition Math_ceil_div (x d : Z) : Z := - ((- x) / d).

(** [addRateLimitHeaders(headers, rateLimitInfo)] (main.ts, lines 54-58);
    the mutated [Headers] object is returned. *)
Definition addRateLimitHeaders (h : Headers) (rateLimitInfo : RateLimitInfo)
  : Headers :=
  let h := headers_set "X-RateLimit-Limit" (toString RATE_LIMIT) h in
  let h := headers_set "X-RateLimit-Remaining"
             (toString (remaining rateLimitInfo)) h in
  headers_set "X-RateLimit-Reset"
    (toString (Math_ceil_div (reset rateLimitInfo) 1000)) h.

(** ** The world outside the program

    What one request observes of the clock and of the file system: the
    two readings of [Date.now()], the directory probe of the log line, the
    read of the index document and the answer of [serveDir]. *)
Record World := mkWorld {
  Date_now : Z;
  Date_now_again : Z;
  readDir_next : completion unit;
  readTextFile : string -> completion (list N);
  serveDir : Request -> completion Response }.

Section Server.

(** [gzip] of the denoflate module: bytes to bytes. *)
Variable gzip : list byte -> list byte.

(** ** Response compression (main.ts, lines 264-276) *)

Definition compressResponse (response : Response) : Response :=
  let body := text response in
  let compressed := gzip (Utf8.encode body) in
  let h := headers response in
  let h := headers_set "Content-Encoding" "gzip" h in
  let h := headers_set "Content-Length"
             (toString (Z.of_nat (length compressed))) h in
  new_Response_bytes compressed (status response) h.

(** ** The request handler (main.ts, lines 279-403) *)

(** [x-forwarded-for]'s first entry, else [x-real-ip], else "unknown". *)
Definition clientIP (req : Request) : string :=
  let real_ip :=
    match headers_get "x-real-ip" (req_headers req) with
    | Some v => if truthy v then v else "unknown"
    | None => "unknown"
    end in
  match headers_get "x-forwarded-for" (req_headers req) with
  | Some v =>
      let first := split_comma_first v in
      if truthy first then first else real_ip
  | None => real_ip
  end.

Definition acceptsGzip (req : Request) : bool :=
  match headers_get "accept-encoding" (req_headers req) with
  | Some v => str_includes v "gzip"
  | None => false
  end.

(** The path test of the static-assets branch. *)
Definition is_asset_path (p : string) : bool :=
  startsWith p "/assets/" ||
  (endsWith p ".ico" || endsWith p ".png" || endsWith p ".svg" ||
   endsWith p ".webmanifest").

Definition max_age (seconds : Z) : string :=
  "public, max-age=" +:+ toString seconds.

(** The 429 branch. *)
Definition rate_limit_exceeded (w : World) (rateLimitInfo : RateLimitInfo)
  : Response :=
  let h := new_Headers
    [("Content-Type", "text/plain");
     ("Retry-After",
      toString (Math_ceil_div (reset rateLimitInfo - Date_now_again w) 1000))] in
  let h := addRateLimitHeaders h rateLimitInfo in
  new_Response (Utf8.of_literal "Rate limit exceeded") 429 h.

(** The [/widget-config] branch. *)
Definition widget_config (acceptsGzip : bool) (rateLimitInfo : RateLimitInfo)
  : Response :=
  let config := JSON_stringify WIDGET_CONFIG in
  let h := new_Headers
    [("Content-Type", "application/json");
     ("Cache-Control", max_age DYNAMIC_CACHE_MAX_AGE);
     ("X-Content-Type-Options", "nosniff");
     ("Access-Control-Allow-Origin", "*");
     ("Access-Control-Allow-Methods", "GET, OPTIONS");
     ("Access-Control-Allow-Headers", "Content-Type")] in
  let h := addRateLimitHeaders h rateLimitInfo in
  let response := new_Response (Utf8.of_literal config) 200 h in
  if acceptsGzip then compressResponse response else response.

(** The [/] and [/index.html] branch. *)
Definition index_html (w : World) (rateLimitInfo : RateLimitInfo)
  : Response :=
  match readTextFile w "widget-react-app/dist/index.html" with
  | Return indexHtml =>
      let h := new_Headers
        [("content-type", "text/html; charset=utf-8");
         ("Cache-Control", max_age DYNAMIC_CACHE_MAX_AGE)] in
      let h := addRateLimitHeaders h rateLimitInfo in
      new_Response indexHtml 200 h
  | Throw _ =>
      new_Response (Utf8.of_literal "Server Error") 500 ∅
  end.

(** The static-assets branch. *)
Definition static_asset (w : World) (req : Request) (acceptsGzip : bool)
           (rateLimitInfo : RateLimitInfo) : Response :=
  match serveDir w req with
  | Return response =>
      if negb (ok response) then
        new_Response (Utf8.of_literal "Not Found") 404 ∅
      else
        let h := headers_set "Cache-Control"
          (if startsWith (pathname req) "/assets/"
           then max_age STATIC_CACHE_MAX_AGE
           else max_age DYNAMIC_CACHE_MAX_AGE)
          (headers response) in
        let h := addRateLimitHeaders h rateLimitInfo in
        let response := mkResponse (status response) h (body response) in
        if acceptsGzip then compressResponse response else response
  | Throw _ =>
      new_Response (Utf8.of_literal "Server Error") 500 ∅
  end.

(** The last branch: no route matches. *)
Definition not_found (rateLimitInfo : RateLimitInfo) : Response :=
  let h := new_Headers
    [("Content-Type", "text/plain"); ("Cache-Control", "no-store")] in
  let h := addRateLimitHeaders h rateLimitInfo in
  new_Response (Utf8.of_literal "Not Found") 404 h.

(** The [try] block after the limiter has answered: the 429 branch, then
    the branch the path selects. *)
Definition route (w : World) (req : Request) (rateLimitInfo : RateLimitInfo)
  : completion Response :=
  if negb (allowed rateLimitInfo) then
    Return (rate_limit_exceeded w rateLimitInfo)
  else
    let gz := acceptsGzip req in
    let p := pathname req in
    if bool_decide (p = "/widget-config") then
      Return (widget_config gz rateLimitInfo)
    else if bool_decide (p = "/") || bool_decide (p = "/index.html") then
      Return (index_html w rateLimitInfo)
    else if is_asset_path p then
      Return (static_asset w req gz rateLimitInfo)
    else
      Return (not_found rateLimitInfo).

(** The body of the [try] block: the limiter is asked first, with the
    identity derived from the request; the table is returned with the
    response. *)
Definition handle_try (w : World) (req : Request) (st : Store)
  : completion Response * Store :=
  let '(rateLimitInfo, st') := checkRateLimit (Date_now w) (clientIP req) st in
  (route w req rateLimitInfo, st').

(** The [catch] clause of the handler. *)
Definition internal_server_error : Response :=
  new_Response (Utf8.of_literal "Internal Server Error") 500
    (new_Headers
       [("Content-Type", "text/plain"); ("Cache-Control", "no-store")]).

(** The function passed to [serve].  The directory probe of the second
    log line runs before the [try] block: when it throws, the handler
    throws and the limiter is not reached. *)
Definition handler (w : World) (req : Request) (st : Store)
  : completion Response * Store :=
  match readDir_next w with
  | Throw e => (Throw e, st)
  | Return _ =>
      match handle_try w req st with
      | (Return response, st') => (Return response, st')
      | (Throw _, st') => (Return internal_server_error, st')
      end
  end.

(** The server over a sequence of requests, each with the world it
    observes. *)
Fixpoint serve (reqs : list (World * Request)) (st : Store)
  : list (completion Response) * Store :=
  match reqs with
  | [] => ([], st)
  | (w, req) :: reqs' =>
      let '(r, st1) := handler w req st in
      let '(rs, st2) := serve reqs' st1 in
      (r :: rs, st2)
  end.

End Server.

(** ** Vocabulary for the rate-limiter properties *)

(** [n] consecutive calls of one identity at the given clock values. *)
Definition calls (ip : string) (times : list Z) : list event :=
  map (fun t => Call t ip) times.

(** A call at [now] opens a window for [ip]: the identity has no entry, or
    its entry is older than the window (the two resetting branches). *)
Definition opens_window (now : Z) (ip : string) (st : Store) : Prop :=
  match st !! ip with
  | None => True
  | Some e => now - timestamp e > RATE_WINDOW
  end.

(** The decision expected for the [k]-th call (counted from 1) of a window
    that started at [t0]. *)
Definition nth_decision (t0 : Z) (k : Z) : RateLimitInfo :=
  if bool_decide (k <= RATE_LIMIT)
  then mkInfo true (RATE_LIMIT - k) (t0 + RATE_WINDOW)
  else mkInfo false 0 (t0 + RATE_WINDOW).

(** No stored counter is above the limit. *)
Definition store_inv (st : Store) : Prop :=
  forall ip e, st !! ip = Some e -> count e <= RATE_LIMIT.

(** The clock does not run backwards along a trace that starts at [t]. *)
Fixpoint nondecreasing_from (t : Z) (evs : list event) : Prop :=
  match evs with
  | [] => True
  | e :: evs' => t <= event_time e /\ nondecreasing_from (event_time e) evs'
  end.

(** The table [swept] of a limiter whose timer fires and the table [kept]
    of one whose timer never fires agree at time [now], up to entries of
    [kept] that are already older than the window. *)
Definition sweep_sim (now : Z) (swept kept : Store) : Prop :=
  forall ip,
    swept !! ip = kept !! ip \/
    (swept !! ip = None /\
     exists e, kept !! ip = Some e /\ now - timestamp e > RATE_WINDOW).

(** ** Vocabulary for the chain look-ups *)

(** The chain ids the tables know. *)
Definition supported_chain (n : Z) : Prop :=
  In n SUPPORTED_CHAINS.EVM \/ In n SUPPORTED_CHAINS.SOLANA.

(** The failure of the look-ups for a chain id outside the tables. *)
Definition UnsupportedChain (n : Z) : Error :=
  mkError ("Unsupported chain ID: " +:+ toString n).

(** ** Vocabulary for the handler properties *)

(** The three rate-limit headers, with the values of the decision [info];
    the reset time is in seconds, rounded up. *)
Definition carries_rate_limit_headers (info : RateLimitInfo) (r : Response)
  : Prop :=
  headers_get "X-RateLimit-Limit" (headers r) = Some (toString RATE_LIMIT) /\
  headers_get "X-RateLimit-Remaining" (headers r) =
    Some (toString (remaining info)) /\
  headers_get "X-RateLimit-Reset" (headers r) =
    Some (toString (Math_ceil_div (reset info) 1000)).

(** None of the three rate-limit headers is present. *)
Definition lacks_rate_limit_headers (r : Response) : Prop :=
  headers_get "X-RateLimit-Limit" (headers r) = None /\
  headers_get "X-RateLimit-Remaining" (headers r) = None /\
  headers_get "X-RateLimit-Reset" (headers r) = None.

(** The decision the limiter takes for a request. *)
Definition decision (w : World) (req : Request) (st : Store) : RateLimitInfo :=
  (checkRateLimit (Date_now w) (clientIP req) st).1.

(** The bytes of the serialized configuration document. *)
Definition config_bytes : list byte :=
  String.list_byte_of_string (JSON_stringify WIDGET_CONFIG).

(** What the handler answers once the limiter has decided [d]. *)
Definition answer (gzip : list byte -> list byte)
           (w : World) (req : Request) (d : RateLimitInfo)
  : completion Response :=
  match route gzip w req d with
  | Return response => Return response
  | Throw _ => Return internal_server_error
  end.

(** The first bytes of every PNG file, served as a static asset. *)
Definition png_signature : list byte :=
  [x89; x50; x4e; x47; x0d; x0a; x1a; x0a].

Definition png_response : Response :=
  mkResponse 200 (new_Headers [("content-type", "image/png")]) png_signature.

(** A world in which the file system holds that asset. *)
Definition png_world : World :=
  mkWorld 1000 1000 (Return tt)
    (fun _ => Throw (mkError "NotFound"))
    (fun _ => Return png_response).

(** A browser asking for it. *)
Definition png_request : Request :=
  mkRequest "GET" "/favicon.png"
    (new_Headers [("Accept-Encoding", "gzip, deflate, br")]).

(** A body of 7-bit characters only. *)
Definition ascii_bytes (bytes : list byte) : Prop :=
  Forall (fun b => (Byte.to_N b < 128)%N) bytes.

(** ** Concrete inputs for the examples *)

(** A stand-in codec that frames the bytes with the two magic bytes of
    gzip, and its inverse. *)
Definition framing_gzip (bytes : list byte) : list byte := x1f :: x8b :: bytes.
Definition framing_gunzip (bytes : list byte) : list byte := drop 2 bytes.

(** A world whose file system holds nothing. *)
Definition empty_disk (now : Z) : World :=
  mkWorld now now (Return tt)
    (fun _ => Throw (mkError "NotFound"))
    (fun _ => Throw (mkError "NotFound")).

(** A request of the client 203.0.113.7, behind a proxy. *)
Definition get (path : string) : Request :=
  mkRequest "GET" path (new_Headers [("X-Forwarded-For", "203.0.113.7, 10.0.0.1")]).

(** The same with gzip accepted. *)
Definition get_gzip (path : string) : Request :=
  mkRequest "GET" path
    (new_Headers [("X-Forwarded-For", "203.0.113.7, 10.0.0.1");
                  ("Accept-Encoding", "gzip, deflate")]).

(** ** Vocabulary for further properties of the limiter *)

(** Every stored counter is at least one and at most the limit. *)
Definition store_wf (st : Store) : Prop :=
  forall ip e, st !! ip = Some e -> 1 <= count e <= RATE_LIMIT.

(** No stored window starts after [now]. *)
Definition no_future_entries (now : Z) (st : Store) : Prop :=
  forall ip e, st !! ip = Some e -> timestamp e <= now.

(** The identities of the calls of a trace, in order. *)
Fixpoint callers (evs : list event) : list string :=
  match evs with
  | [] => []
  | Call _ ip :: evs' => ip :: callers evs'
  | Sweep _ :: evs' => callers evs'
  end.

(** The decisions taken for [ip] along a trace: the decisions of [run],
    each paired with its caller, restricted to [ip]. *)
Definition decisions_for (ip : string) (evs : list event) (st : Store)
  : list RateLimitInfo :=
  map snd (filter (fun p => p.1 = ip) (zip (callers evs) (run evs st).1)).

(** The trace reduced to the calls of [ip]: no other identity calls, the
    timer never fires. *)
Fixpoint calls_of (ip : string) (evs : list event) : list event :=
  match evs with
  | [] => []
  | Call now ip' :: evs' =>
      if bool_decide (ip' = ip) then Call now ip' :: calls_of ip evs'
      else calls_of ip evs'
  | Sweep _ :: evs' => calls_of ip evs'
  end.

(** What a call at [now] can see of an entry: nothing when there is none
    or when it is older than the window. *)
Definition live_view (now : Z) (o : option ClientWindow) : option ClientWindow :=
  match o with
  | Some e => if bool_decide (now - timestamp e > RATE_WINDOW) then None else Some e
  | None => None
  end.

(** How many of the decisions admit the call. *)
Definition admitted (ds : list RateLimitInfo) : nat :=
  length (filter (fun d => allowed d = true) ds).

(** ** Vocabulary for further properties of the handler *)

(** The bytes of a string literal of the source. *)
Definition literal_bytes (s : string) : list byte := String.list_byte_of_string s.

(** The path selects the index document. *)
Definition is_index_path (p : string) : Prop := p = "/" \/ p = "/index.html".

(** A table in which the client 203.0.113.7 has used up a window that
    started at time 0. *)
Definition full_table : Store := {[ "203.0.113.7" := mkWindow 50 0 ]}.

(** A world late in that window: the clock reads 29000, then 29500. *)
Definition late_world : World :=
  mkWorld 29000 29500 (Return tt)
    (fun _ => Throw (mkError "NotFound"))
    (fun _ => Throw (mkError "NotFound")).

(** A world whose file system holds the index document only. *)
Definition indexed_world : World :=
  mkWorld 1000 1000 (Return tt)
    (fun _ => Return (Utf8.of_literal "<!doctype html><title>J1T</title>"))
    (fun _ => Throw (mkError "NotFound")).

(** A style sheet as [serveDir] would answer it. *)
Definition css_response : Response :=
  mkResponse 200 (new_Headers [("content-type", "text/css")])
    (literal_bytes "body{margin:0}").

(** ** Vocabulary for the text properties *)

(** A Unicode scalar value: a code point that is not a surrogate. *)
Definition scalar_value (cp : N) : Prop :=
  (cp < 0xD800 \/ (0xE000 <= cp /\ cp < 0x110000))%N.

(** A text: a sequence of scalar values. *)
Definition is_text (s : list N) : Prop := Forall scalar_value s.

(** The byte order mark, U+FEFF. *)
Definition BOM : N := 0xFEFF%N.

(** The text does not begin with a byte order mark. *)
Definition no_leading_BOM (s : list N) : Prop :=
  match s with
  | cp :: _ => cp <> BOM
  | [] => True
  end.

(** A response whose body is a text with characters of one, two, three and
    four bytes. *)
Definition sample_text : list N := [0x48; 0xE9; 0x20AC; 0x1F600]%N.

Definition text_response : Response :=
  mkResponse 200 (new_Headers [("content-type", "image/svg+xml")])
    (Utf8.encode sample_text).

(** ** The directory probe on Deno

    [Deno.readDir(".")] returns an async iterable: an object whose only
    member is its [Symbol.asyncIterator] method.  It has no [next], so the
    call [Deno.readDir(".").next()] in the second log line of the handler
    (main.ts, line 284) calls [undefined] and throws a [TypeError]. *)
Definition readDir_next_TypeError : Error :=
  mkError "Deno.readDir(...).next is not a function".

(** A world as Deno provides it: the probe throws. *)
Definition on_Deno (w : World) : Prop :=
  readDir_next w = Throw readDir_next_TypeError.

(** Such a world, with the index document and the assets on disk. *)
Definition deno_world (now : Z) : World :=
  mkWorld now now (Throw readDir_next_TypeError)
    (fun _ => Return (Utf8.of_literal "<!doctype html><title>J1T</title>"))
    (fun _ => Return png_response).

(* ===================================================================== *)
(** * Part II: properties                                                 *)
(* ===================================================================== *)

(** ** The four branches of [checkRateLimit] *)

Lemma checkRateLimit_absent now ip (st : Store) :
  st !! ip = None ->
  checkRateLimit now ip st =
    (mkInfo true (RATE_LIMIT - 1) (now + RATE_WINDOW),
     <[ip := mkWindow 1 now]> st).
Proof. intros H. unfold checkRateLimit. by rewrite H. Qed.

Lemma checkRateLimit_expired now ip (st : Store) e :
  st !! ip = Some e ->
  now - timestamp e > RATE_WINDOW ->
  checkRateLimit now ip st =
    (mkInfo true (RATE_LIMIT - 1) (now + RATE_WINDOW),
     <[ip := mkWindow 1 now]> st).
Proof.
  intros H Hage. unfold checkRateLimit. rewrite H.
  by rewrite bool_decide_eq_true_2.
Qed.

Lemma checkRateLimit_full now ip (st : Store) e :
  st !! ip = Some e ->
  now - timestamp e <= RATE_WINDOW ->
  count e >= RATE_LIMIT ->
  checkRateLimit now ip st =
    (mkInfo false 0 (timestamp e + RATE_WINDOW), st).
Proof.
  intros H Hage Hfull. unfold checkRateLimit. rewrite H.
  rewrite bool_decide_eq_false_2 by lia.
  by rewrite bool_decide_eq_true_2.
Qed.

Lemma checkRateLimit_bump now ip (st : Store) e :
  st !! ip = Some e ->
  now - timestamp e <= RATE_WINDOW ->
  count e < RATE_LIMIT ->
  checkRateLimit now ip st =
    (mkInfo true (RATE_LIMIT - (count e + 1)) (timestamp e + RATE_WINDOW),
     <[ip := mkWindow (count e + 1) (timestamp e)]> st).
Proof.
  intros H Hage Hroom. unfold checkRateLimit. rewrite H.
  rewrite bool_decide_eq_false_2 by lia.
  by rewrite bool_decide_eq_false_2 by lia.
Qed.

(** Case analysis on a call, one case per branch of the source. *)
Ltac check_cases now ip st :=
  let e := fresh "e" in
  let Hlk := fresh "Hlk" in
  let Hage := fresh "Hage" in
  let Hcnt := fresh "Hcnt" in
  destruct (st !! ip) as [e|] eqn:Hlk;
  [ destruct (decide (now - timestamp e > RATE_WINDOW)) as [Hage|Hage];
    [ rewrite (checkRateLimit_expired now ip st e Hlk Hage)
    | destruct (decide (count e >= RATE_LIMIT)) as [Hcnt|Hcnt];
      [ rewrite (checkRateLimit_full now ip st e Hlk ltac:(lia) Hcnt)
      | rewrite (checkRateLimit_bump now ip st e Hlk ltac:(lia) ltac:(lia)) ] ]
  | rewrite (checkRateLimit_absent now ip st Hlk) ].

(** A call touches no entry but the caller's. *)
Lemma checkRateLimit_other now ip ip' (st : Store) :
  ip <> ip' -> (checkRateLimit now ip st).2 !! ip' = st !! ip'.
Proof.
  intros Hne. check_cases now ip st; simpl;
    by rewrite ?lookup_insert_ne.
Qed.

(** ** The sweep, entry by entry *)

Lemma sweep_lookup now (st : Store) ip :
  sweep now st !! ip =
    match st !! ip with
    | Some e =>
        if bool_decide (now - timestamp e > RATE_WINDOW) then None else Some e
    | None => None
    end.
Proof.
  unfold sweep.
  enough (Hgen : forall (base m : Store),
    map_fold
      (fun ip data acc =>
         if bool_decide (now - timestamp data > RATE_WINDOW)
         then delete ip acc else acc) base m !! ip =
    match m !! ip with
    | Some e =>
        if bool_decide (now - timestamp e > RATE_WINDOW)
        then None else base !! ip
    | None => base !! ip
    end).
  { rewrite Hgen. destruct (st !! ip) as [e|] eqn:E; [|done].
    by case_bool_decide. }
  intros base m.
  apply (map_fold_weak_ind (fun (r m : Store) =>
    r !! ip =
    match m !! ip with
    | Some e =>
        if bool_decide (now - timestamp e > RATE_WINDOW)
        then None else base !! ip
    | None => base !! ip
    end)); clear m.
  - by rewrite lookup_empty.
  - intros i x m r Hi IH.
    destruct (decide (i = ip)) as [->|Hne].
    + rewrite lookup_insert_eq. rewrite Hi in IH.
      case_bool_decide; [by rewrite lookup_delete_eq | done].
    + rewrite lookup_insert_ne by done.
      case_bool_decide; [by rewrite lookup_delete_ne | done].
Qed.

(** ** One window, call by call *)

Lemma map_seq_S {A} (f : nat -> A) (j n : nat) :
  map f (seq (S j) n) = map (fun k => f (S k)) (seq j n).
Proof. by rewrite <- seq_shift, map_map. Qed.

(** Calls of [ip] that all fall inside the window opened at [t0], started
    from a table whose entry for [ip] has seen [c] requests of that window
    (the stored counter stops at the limit). *)
Lemma run_inside_window ip t0 (later : list Z) :
  forall (c : Z) (st : Store),
    st !! ip = Some (mkWindow (Z.min c RATE_LIMIT) t0) ->
    Forall (fun t => t - t0 <= RATE_WINDOW) later ->
    run (calls ip later) st =
      (map (fun j => nth_decision t0 (c + Z.of_nat j)) (seq 1 (length later)),
       <[ip := mkWindow (Z.min (c + Z.of_nat (length later)) RATE_LIMIT) t0]> st).
Proof.
  induction later as [|t later IH]; intros c st Hst Hin.
  - simpl. rewrite Z.add_0_r. by rewrite insert_id.
  - apply Forall_cons in Hin as [Ht Hin].
    cbn [calls map run length seq].
    fold (calls ip later).
    destruct (decide (c < RATE_LIMIT)) as [Hc|Hc].
    + rewrite (checkRateLimit_bump t ip st _ Hst) by (simpl; lia).
      cbn [count timestamp].
      rewrite (IH (c + 1)); last done.
      2:{ rewrite lookup_insert_eq. do 2 f_equal. lia. }
      f_equal.
      * f_equal.
        -- unfold nth_decision. rewrite bool_decide_eq_true_2 by lia.
           f_equal. lia.
        -- rewrite (map_seq_S _ 1). apply map_ext. intros j. f_equal. lia.
      * rewrite insert_insert_eq. do 3 f_equal. lia.
    + rewrite (checkRateLimit_full t ip st _ Hst) by (simpl; lia).
      cbn [count timestamp].
      rewrite (IH (c + 1)); last done.
      2:{ rewrite Hst. do 2 f_equal. lia. }
      f_equal.
      * f_equal.
        -- unfold nth_decision. by rewrite bool_decide_eq_false_2 by lia.
        -- rewrite (map_seq_S _ 1). apply map_ext. intros j. f_equal. lia.
      * do 3 f_equal. lia.
Qed.

(** A whole window: the first call opens it at [t0], the others stay
    inside it.  The [k]-th decision is [nth_decision t0 k], and the entry
    left behind counts the calls up to the limit. *)
Lemma run_one_window ip t0 (later : list Z) (st : Store) :
  opens_window t0 ip st ->
  Forall (fun t => t - t0 <= RATE_WINDOW) later ->
  run (calls ip (t0 :: later)) st =
    (map (fun k => nth_decision t0 (Z.of_nat k)) (seq 1 (S (length later))),
     <[ip := mkWindow (Z.min (Z.of_nat (S (length later))) RATE_LIMIT) t0]> st).
Proof.
  intros Hopen Hin.
  assert (Hfirst : checkRateLimit t0 ip st =
    (mkInfo true (RATE_LIMIT - 1) (t0 + RATE_WINDOW),
     <[ip := mkWindow 1 t0]> st)).
  { unfold opens_window in Hopen. destruct (st !! ip) as [e|] eqn:E.
    - by apply (checkRateLimit_expired t0 ip st e).
    - by apply checkRateLimit_absent. }
  cbn [calls map run]. fold (calls ip later). rewrite Hfirst.
  rewrite (run_inside_window ip t0 later 1); [| by rewrite lookup_insert_eq | done].
  cbn [seq map]. f_equal.
  - f_equal.
    rewrite (map_seq_S _ 1). apply map_ext. intros j. f_equal. lia.
  - rewrite insert_insert_eq. do 3 f_equal. lia.
Qed.

Lemma lookup_window_decisions t0 (n i : nat) d :
  map (fun k => nth_decision t0 (Z.of_nat k)) (seq 1 n) !! i = Some d <->
  (i < n)%nat /\ d = nth_decision t0 (Z.of_nat (S i)).
Proof.
  change (map ?f ?l) with (f <$> l).
  rewrite list_lookup_fmap_Some. split.
  - intros (k & -> & Hk). apply lookup_seq in Hk as [-> Hlt]. done.
  - intros [Hlt ->]. exists (S i). split; [done|].
    apply lookup_seq. done.
Qed.

(** C1.  N consecutive calls of one identity inside one window, N at most
    the limit: the first call opens the window at [t0] (no entry, or a
    stale one) and every later call is made no later than
    [t0 + RATE_WINDOW].  Every call is admitted, the k-th call reports
    [remaining = RATE_LIMIT - k], so consecutive calls differ by exactly
    one, and the last call reports [RATE_LIMIT - N]. *)
Theorem within_window_all_admitted ip (st : Store) t0 (later : list Z) :
  opens_window t0 ip st ->
  Forall (fun t => t - t0 <= RATE_WINDOW) later ->
  Z.of_nat (S (length later)) <= RATE_LIMIT ->
  let N := S (length later) in
  let ds := (run (calls ip (t0 :: later)) st).1 in
  length ds = N /\
  (forall k, (1 <= k <= N)%nat ->
     exists d, ds !! (k - 1)%nat = Some d /\
               allowed d = true /\
               remaining d = RATE_LIMIT - Z.of_nat k) /\
  (forall k d d',
     ds !! k = Some d -> ds !! S k = Some d' ->
     remaining d' = remaining d - 1) /\
  (exists d, last ds = Some d /\
             allowed d = true /\
             remaining d = RATE_LIMIT - Z.of_nat N).
Proof.
  intros Hopen Hin HN N ds. subst ds.
  rewrite (run_one_window ip t0 later st Hopen Hin). cbn [fst].
  fold N.
  assert (Hk : forall i, (i < N)%nat ->
    nth_decision t0 (Z.of_nat (S i)) =
      mkInfo true (RATE_LIMIT - Z.of_nat (S i)) (t0 + RATE_WINDOW)).
  { intros i Hi. unfold nth_decision.
    rewrite bool_decide_eq_true_2; [done | subst N; lia]. }
  repeat split.
  - by rewrite length_map, length_seq.
  - intros k [Hk1 HkN].
    exists (nth_decision t0 (Z.of_nat k)).
    split.
    + apply lookup_window_decisions. split; [lia|]. do 2 f_equal. lia.
    + replace k with (S (k - 1)) at 1 2 by lia.
      rewrite Hk by lia. simpl. split; [done|]. f_equal. lia.
  - intros k d d' Hd Hd'.
    apply lookup_window_decisions in Hd as [Hlt ->].
    apply lookup_window_decisions in Hd' as [Hlt' ->].
    rewrite !Hk by lia. simpl. lia.
  - exists (nth_decision t0 (Z.of_nat N)). split.
    + rewrite last_lookup, length_map, length_seq.
      apply lookup_window_decisions. subst N. simpl. split; [lia | done].
    + subst N. rewrite Hk by lia. done.
Qed.

Lemma within_window_all_admitted_witness :
  let ds := (run (calls "203.0.113.7" [1000; 1500; 31000]) ∅).1 in
  length ds = 3%nat /\
  (forall k, (1 <= k <= 3)%nat ->
     exists d, ds !! (k - 1)%nat = Some d /\
               allowed d = true /\
               remaining d = RATE_LIMIT - Z.of_nat k) /\
  (forall k d d',
     ds !! k = Some d -> ds !! S k = Some d' ->
     remaining d' = remaining d - 1) /\
  (exists d, last ds = Some d /\
             allowed d = true /\
             remaining d = RATE_LIMIT - Z.of_nat 3).
Proof.
  apply (within_window_all_admitted "203.0.113.7" ∅ 1000 [1500; 31000]).
  - unfold opens_window. rewrite lookup_empty. exact I.
  - repeat constructor; unfold RATE_WINDOW; lia.
  - simpl. unfold RATE_LIMIT. lia.
Defined.

(** ** The counter never passes the limit *)

Lemma store_inv_empty : store_inv ∅.
Proof. intros ip e H. by rewrite lookup_empty in H. Qed.

Lemma store_inv_insert ip e (st : Store) :
  count e <= RATE_LIMIT -> store_inv st -> store_inv (<[ip := e]> st).
Proof.
  intros He Hinv ip' e' Hlk.
  destruct (decide (ip = ip')) as [->|Hne].
  - rewrite lookup_insert_eq in Hlk. by inversion Hlk; subst.
  - rewrite lookup_insert_ne in Hlk by done. by apply (Hinv ip').
Qed.

Lemma checkRateLimit_inv now ip (st : Store) :
  store_inv st -> store_inv (checkRateLimit now ip st).2.
Proof.
  intros Hinv. check_cases now ip st; cbn [snd].
  - apply store_inv_insert; [unfold RATE_LIMIT; simpl; lia | done].
  - done.
  - apply store_inv_insert; [simpl; lia | done].
  - apply store_inv_insert; [unfold RATE_LIMIT; simpl; lia | done].
Qed.

Lemma sweep_inv now (st : Store) : store_inv st -> store_inv (sweep now st).
Proof.
  intros Hinv ip e Hlk. rewrite sweep_lookup in Hlk.
  destruct (st !! ip) as [e0|] eqn:E; [|done].
  case_bool_decide; [done|]. inversion Hlk; subst. by apply (Hinv ip).
Qed.

(** C3.  Invariant of the table: whatever sequence of calls (of any
    identities, at any clock values) and sweeps is run, no stored entry
    has a count above the limit, provided none had before; in particular
    every table reached from the server's initial, empty table satisfies
    it. *)
Theorem count_never_exceeds_limit (evs : list event) :
  (forall st : Store, store_inv st -> store_inv (run evs st).2) /\
  store_inv (run evs ∅).2.
Proof.
  assert (Hrun : forall st : Store, store_inv st -> store_inv (run evs st).2).
  { induction evs as [|[now ip|now] evs IH]; intros st Hinv.
    - done.
    - cbn [run].
      pose proof (checkRateLimit_inv now ip st Hinv) as H1.
      destruct (checkRateLimit now ip st) as [d st1]. cbn [snd] in H1.
      specialize (IH st1 H1).
      destruct (run evs st1) as [ds st2]. done.
    - cbn [run]. apply IH. by apply sweep_inv. }
  split; [exact Hrun|]. apply Hrun, store_inv_empty.
Qed.

Lemma count_never_exceeds_limit_witness :
  store_inv
    (run [Call 0 "203.0.113.7"; Call 5 "203.0.113.7"; Sweep 40000;
          Call 40001 "198.51.100.2"]
         {[ "203.0.113.7" := mkWindow 49 0 ]}).2.
Proof.
  apply (proj1 (count_never_exceeds_limit _) {[ "203.0.113.7" := mkWindow 49 0 ]}).
  intros ip e H. apply lookup_singleton_Some in H as [_ <-].
  simpl. unfold RATE_LIMIT. lia.
Defined.

(** ** Window reset *)

(** C4, as amended: the reset needs an age strictly above the window
    duration.  For an identity whose entry is older than [RATE_WINDOW],
    the next call is admitted with [remaining = RATE_LIMIT - 1] and the
    entry becomes [{count: 1, timestamp: now}], whatever its count was. *)
Theorem stale_window_reset now ip (st : Store) e :
  st !! ip = Some e ->
  now - timestamp e > RATE_WINDOW ->
  let '(d, st') := checkRateLimit now ip st in
  allowed d = true /\
  remaining d = RATE_LIMIT - 1 /\
  st' !! ip = Some (mkWindow 1 now) /\
  (forall ip', ip' <> ip -> st' !! ip' = st !! ip').
Proof.
  intros Hlk Hage. rewrite (checkRateLimit_expired now ip st e Hlk Hage).
  repeat split.
  - by rewrite lookup_insert_eq.
  - intros ip' Hne. by rewrite lookup_insert_ne.
Qed.

Lemma stale_window_reset_witness :
  let '(d, st') :=
    checkRateLimit 30001 "203.0.113.7" {[ "203.0.113.7" := mkWindow 50 0 ]} in
  allowed d = true /\
  remaining d = RATE_LIMIT - 1 /\
  st' !! "203.0.113.7" = Some (mkWindow 1 30001) /\
  (forall ip', ip' <> "203.0.113.7" ->
     st' !! ip' = ({[ "203.0.113.7" := mkWindow 50 0 ]} : Store) !! ip').
Proof.
  apply (stale_window_reset 30001 "203.0.113.7"
           {[ "203.0.113.7" := mkWindow 50 0 ]} (mkWindow 50 0)).
  - apply lookup_singleton_eq.
  - simpl. unfold RATE_WINDOW. lia.
Defined.

(** C4 as stated fails on the boundary: at an age of exactly
    [RATE_WINDOW] the entry is still in force, and a full window rejects
    the call. *)
Lemma boundary_age_is_not_reset :
  let st : Store := {[ "203.0.113.7" := mkWindow 50 0 ]} in
  30000 - 0 >= RATE_WINDOW /\
  checkRateLimit 30000 "203.0.113.7" st = (mkInfo false 0 30000, st).
Proof.
  split; [unfold RATE_WINDOW; lia|].
  rewrite (checkRateLimit_full 30000 "203.0.113.7" _ (mkWindow 50 0)).
  - done.
  - apply lookup_singleton_eq.
  - simpl. unfold RATE_WINDOW. lia.
  - simpl. unfold RATE_LIMIT. lia.
Qed.

(** ** The reset time *)

(** C6.  Whatever the branch, the decision's [reset] is the timestamp of
    the caller's entry as it stands after the call, plus the window
    duration; when the call created or reset the entry, that timestamp is
    the clock value of the call. *)
Theorem reset_is_window_end now ip (st : Store) :
  let '(d, st') := checkRateLimit now ip st in
  exists e,
    st' !! ip = Some e /\
    reset d = timestamp e + RATE_WINDOW /\
    (opens_window now ip st ->
     timestamp e = now /\ reset d = now + RATE_WINDOW).
Proof.
  unfold opens_window.
  check_cases now ip st.
  - exists (mkWindow 1 now). by rewrite lookup_insert_eq.
  - exists e. repeat split; done.
  - eexists. rewrite lookup_insert_eq. repeat split; simpl; done.
  - exists (mkWindow 1 now). by rewrite lookup_insert_eq.
Qed.

(** ** The sweep is not observable *)

Lemma sweep_sim_refl now (st : Store) : sweep_sim now st st.
Proof. intros ip. by left. Qed.

Lemma sweep_sim_later now now' (swept kept : Store) :
  now <= now' -> sweep_sim now swept kept -> sweep_sim now' swept kept.
Proof.
  intros Hle Hsim ip. destruct (Hsim ip) as [Heq|(Hnone & e & He & Hage)].
  - by left.
  - right. split; [done|]. exists e. split; [done|lia].
Qed.

Lemma sweep_sim_sweep now (swept kept : Store) :
  sweep_sim now swept kept -> sweep_sim now (sweep now swept) kept.
Proof.
  intros Hsim ip. rewrite sweep_lookup.
  destruct (Hsim ip) as [Heq|(Hnone & e & He & Hage)].
  - rewrite Heq. destruct (kept !! ip) as [e|] eqn:E; [|by left].
    case_bool_decide; [|by left].
    right. split; [done|]. by exists e.
  - rewrite Hnone. right. split; [done|]. by exists e.
Qed.

(** A deleted stale entry and a kept stale entry lead to the same decision
    and to tables that still agree. *)
Lemma sweep_sim_check now ip (swept kept : Store) :
  sweep_sim now swept kept ->
  (checkRateLimit now ip swept).1 = (checkRateLimit now ip kept).1 /\
  sweep_sim now (checkRateLimit now ip swept).2 (checkRateLimit now ip kept).2.
Proof.
  intros Hsim.
  assert (Hins : forall e,
    sweep_sim now (<[ip := e]> swept) (<[ip := e]> kept)).
  { intros e ip'. destruct (decide (ip' = ip)) as [->|Hne].
    - left. by rewrite !lookup_insert_eq.
    - rewrite !lookup_insert_ne by done. apply Hsim. }
  destruct (Hsim ip) as [Heq|(Hnone & e & He & Hage)].
  - check_cases now ip kept; rewrite ?Hlk in Heq.
    + rewrite (checkRateLimit_expired now ip swept e Heq Hage). eauto.
    + rewrite (checkRateLimit_full now ip swept e Heq) by lia. eauto.
    + rewrite (checkRateLimit_bump now ip swept e Heq) by lia. eauto.
    + rewrite (checkRateLimit_absent now ip swept Heq). eauto.
  - rewrite (checkRateLimit_absent now ip swept Hnone).
    rewrite (checkRateLimit_expired now ip kept e He Hage). eauto.
Qed.

Lemma run_sweep_sim (evs : list event) :
  forall now (swept kept : Store),
    sweep_sim now swept kept ->
    nondecreasing_from now evs ->
    (run evs swept).1 = (run (without_sweeps evs) kept).1.
Proof.
  induction evs as [|[t ip|t] evs IH]; intros now swept kept Hsim Hmono.
  - done.
  - destruct Hmono as [Hle Hmono]. cbn [event_time] in *.
    cbn [run without_sweeps].
    apply (sweep_sim_later now t) in Hsim; [|done].
    destruct (sweep_sim_check t ip swept kept Hsim) as [Hd Hsim'].
    destruct (checkRateLimit t ip swept) as [d1 s1].
    destruct (checkRateLimit t ip kept) as [d2 s2].
    cbn [fst snd] in *. subst d2.
    specialize (IH t s1 s2 Hsim' Hmono).
    destruct (run evs s1) as [ds1 s1'].
    destruct (run (without_sweeps evs) s2) as [ds2 s2'].
    cbn [fst] in *. by subst.
  - destruct Hmono as [Hle Hmono]. cbn [event_time] in *.
    cbn [run without_sweeps].
    apply (IH t); [|done].
    apply sweep_sim_sweep. by apply (sweep_sim_later now t).
Qed.

(** C10.  The sweep deletes exactly the entries older than the window and
    keeps every other entry as it is; for an identity whose entry is that
    old, a call decides the same whether the entry is still there or has
    been deleted; hence, along any trace whose clock values do not
    decrease, the decisions of the calls are the same with the sweeps as
    with the sweeps left out. *)
Theorem sweep_is_unobservable :
  (forall now (st : Store) ip,
     sweep now st !! ip =
       match st !! ip with
       | Some e =>
           if bool_decide (now - timestamp e > RATE_WINDOW)
           then None else Some e
       | None => None
       end) /\
  (forall now ip (st : Store) e,
     st !! ip = Some e -> now - timestamp e > RATE_WINDOW ->
     (checkRateLimit now ip st).1 = (checkRateLimit now ip (delete ip st)).1 /\
     (checkRateLimit now ip st).1 =
       mkInfo true (RATE_LIMIT - 1) (now + RATE_WINDOW) /\
     (checkRateLimit now ip st).2 = (checkRateLimit now ip (delete ip st)).2) /\
  (forall t0 (evs : list event) (st : Store),
     nondecreasing_from t0 evs ->
     (run evs st).1 = (run (without_sweeps evs) st).1).
Proof.
  split; [|split].
  - apply sweep_lookup.
  - intros now ip st e Hlk Hage.
    rewrite (checkRateLimit_expired now ip st e Hlk Hage).
    rewrite (checkRateLimit_absent now ip (delete ip st))
      by apply lookup_delete_eq.
    cbn [fst snd]. repeat split. by rewrite insert_delete_eq.
  - intros t0 evs st Hmono.
    apply (run_sweep_sim evs t0); [apply sweep_sim_refl | done].
Qed.

Lemma sweep_is_unobservable_witness :
  (run [Call 0 "203.0.113.7"; Call 10 "198.51.100.2"; Sweep 30001;
        Call 30002 "203.0.113.7"; Sweep 45000; Call 45000 "198.51.100.2"]
       ∅).1 =
  (run (without_sweeps
          [Call 0 "203.0.113.7"; Call 10 "198.51.100.2"; Sweep 30001;
           Call 30002 "203.0.113.7"; Sweep 45000; Call 45000 "198.51.100.2"])
       ∅).1.
Proof.
  apply (proj2 (proj2 sweep_is_unobservable) 0).
  simpl. lia.
Defined.

(** ** Chain look-ups *)

Lemma includes_In (xs : list Z) (x : Z) : includes xs x = true <-> In x xs.
Proof.
  unfold includes. rewrite existsb_exists. split.
  - intros (y & Hy & Heq). apply bool_decide_eq_true_1 in Heq. by subst.
  - intros Hx. exists x. split; [done | by apply bool_decide_eq_true_2].
Qed.

Lemma includes_not_In (xs : list Z) (x : Z) :
  includes xs x = false <-> ~ In x xs.
Proof.
  rewrite <- includes_In. destruct (includes xs x); split; congruence.
Qed.

(** C7.  On every chain id of the EVM set and of the non-EVM set both
    look-ups return a non-empty string; on every other integer both throw
    the unsupported-chain error. *)
Theorem chain_lookups_total_on_supported :
  (forall n, supported_chain n ->
     (exists s, getReferralKey n = Return s /\ s <> EmptyString) /\
     (exists s, getAffiliateFeeRecipient n = Return s /\ s <> EmptyString)) /\
  (forall n, ~ supported_chain n ->
     getReferralKey n = Throw (UnsupportedChain n) /\
     getAffiliateFeeRecipient n = Throw (UnsupportedChain n)).
Proof.
  split.
  - intros n [Hevm|Hsol].
    + unfold getReferralKey, getAffiliateFeeRecipient.
      apply includes_In in Hevm. rewrite Hevm.
      destruct (includes SUPPORTED_CHAINS.SOLANA n); split; eexists; split;
        try reflexivity; discriminate.
    + unfold getReferralKey, getAffiliateFeeRecipient.
      apply includes_In in Hsol. rewrite Hsol.
      split; eexists; split; try reflexivity; discriminate.
  - intros n Hn. unfold supported_chain in Hn.
    assert (He : includes SUPPORTED_CHAINS.EVM n = false)
      by (apply includes_not_In; tauto).
    assert (Hs : includes SUPPORTED_CHAINS.SOLANA n = false)
      by (apply includes_not_In; tauto).
    unfold getReferralKey, getAffiliateFeeRecipient. rewrite He, Hs. done.
Qed.

Lemma chain_lookups_total_on_supported_witness :
  ((exists s, getReferralKey 8453 = Return s /\ s <> EmptyString) /\
   (exists s, getAffiliateFeeRecipient 8453 = Return s /\ s <> EmptyString)) /\
  (getReferralKey 2 = Throw (UnsupportedChain 2) /\
   getAffiliateFeeRecipient 2 = Throw (UnsupportedChain 2)).
Proof.
  split.
  - apply (proj1 chain_lookups_total_on_supported 8453).
    left. simpl. tauto.
  - apply (proj2 chain_lookups_total_on_supported 2).
    unfold supported_chain. simpl. lia.
Defined.

(** ** Headers *)

Lemma headers_get_set_eq name value (h : Headers) :
  headers_get name (headers_set name value h) = Some value.
Proof. unfold headers_get, headers_set. apply lookup_insert_eq. Qed.

Lemma headers_get_set_ne name name' value (h : Headers) :
  toLowerCase name <> toLowerCase name' ->
  headers_get name' (headers_set name value h) = headers_get name' h.
Proof. intros Hne. unfold headers_get, headers_set. by apply lookup_insert_ne. Qed.

Lemma headers_get_append_ne name name' value (h : Headers) :
  toLowerCase name <> toLowerCase name' ->
  headers_get name' (headers_append name value h) = headers_get name' h.
Proof.
  intros Hne. unfold headers_get, headers_append.
  destruct (h !! toLowerCase name); by apply lookup_insert_ne.
Qed.

(** [addRateLimitHeaders] leaves the three headers with the values of the
    decision, whatever the header list held before. *)
Lemma addRateLimitHeaders_get (h : Headers) info :
  headers_get "X-RateLimit-Limit" (addRateLimitHeaders h info) =
    Some (toString RATE_LIMIT) /\
  headers_get "X-RateLimit-Remaining" (addRateLimitHeaders h info) =
    Some (toString (remaining info)) /\
  headers_get "X-RateLimit-Reset" (addRateLimitHeaders h info) =
    Some (toString (Math_ceil_div (reset info) 1000)).
Proof.
  unfold addRateLimitHeaders. repeat split.
  - rewrite !headers_get_set_ne by (vm_compute; discriminate).
    apply headers_get_set_eq.
  - rewrite headers_get_set_ne by (vm_compute; discriminate).
    apply headers_get_set_eq.
  - apply headers_get_set_eq.
Qed.

(** Building a response from a string touches no header but the content
    type. *)
Lemma new_Response_headers name txt st (h : Headers) :
  toLowerCase "Content-Type" <> toLowerCase name ->
  headers_get name (headers (new_Response txt st h)) = headers_get name h.
Proof.
  intros Hne. unfold new_Response. cbn [headers].
  destruct (headers_get "Content-Type" h); [done|].
  by apply headers_get_append_ne.
Qed.

Lemma new_Response_status txt st h : status (new_Response txt st h) = st.
Proof. done. Qed.

Section ServerProperties.

Variable gzip : list byte -> list byte.

(** Compression touches no header but the content encoding and length,
    and keeps the status. *)
Lemma compressResponse_headers name (response : Response) :
  toLowerCase "Content-Encoding" <> toLowerCase name ->
  toLowerCase "Content-Length" <> toLowerCase name ->
  headers_get name (headers (compressResponse gzip response)) =
    headers_get name (headers response).
Proof.
  intros H1 H2. unfold compressResponse, new_Response_bytes. cbn [headers].
  rewrite headers_get_set_ne by done. by rewrite headers_get_set_ne.
Qed.

Lemma compressResponse_status (response : Response) :
  status (compressResponse gzip response) = status response.
Proof. done. Qed.

Lemma carries_compressResponse info (response : Response) :
  carries_rate_limit_headers info response ->
  carries_rate_limit_headers info (compressResponse gzip response).
Proof.
  unfold carries_rate_limit_headers.
  rewrite !compressResponse_headers by (vm_compute; discriminate). done.
Qed.

Lemma carries_new_Response info txt st (h : Headers) :
  carries_rate_limit_headers info (new_Response txt st (addRateLimitHeaders h info)).
Proof.
  unfold carries_rate_limit_headers.
  rewrite !new_Response_headers by (vm_compute; discriminate).
  apply addRateLimitHeaders_get.
Qed.

(** ** The branches of the handler, one by one *)

Lemma rate_limit_exceeded_carries w info :
  status (rate_limit_exceeded w info) = 429 /\
  carries_rate_limit_headers info (rate_limit_exceeded w info).
Proof. split; [done | apply carries_new_Response]. Qed.

Lemma widget_config_carries gz info :
  status (widget_config gzip gz info) = 200 /\
  carries_rate_limit_headers info (widget_config gzip gz info).
Proof.
  unfold widget_config. destruct gz.
  - split; [done|]. apply carries_compressResponse, carries_new_Response.
  - split; [done | apply carries_new_Response].
Qed.

Lemma index_html_cases w info :
  (status (index_html w info) = 200 /\
   carries_rate_limit_headers info (index_html w info)) \/
  (status (index_html w info) = 500 /\
   lacks_rate_limit_headers (index_html w info)).
Proof.
  unfold index_html.
  destruct (readTextFile w "widget-react-app/dist/index.html").
  - left. split; [done | apply carries_new_Response].
  - right. split; [done|]. repeat split; by vm_compute.
Qed.

Lemma not_found_carries info :
  status (not_found info) = 404 /\
  carries_rate_limit_headers info (not_found info).
Proof. split; [done | apply carries_new_Response]. Qed.

Lemma static_asset_cases w req gz info :
  (200 <= status (static_asset gzip w req gz info) <= 299 /\
   carries_rate_limit_headers info (static_asset gzip w req gz info)) \/
  (status (static_asset gzip w req gz info) = 404 /\
   lacks_rate_limit_headers (static_asset gzip w req gz info)) \/
  (status (static_asset gzip w req gz info) = 500 /\
   lacks_rate_limit_headers (static_asset gzip w req gz info)).
Proof.
  unfold static_asset.
  destruct (serveDir w req) as [response|err].
  - destruct (ok response) eqn:Hok; cbn [negb].
    + left. unfold ok in Hok. apply andb_true_iff in Hok as [Hlo Hhi].
      apply bool_decide_eq_true_1 in Hlo, Hhi.
      assert (Hc : carries_rate_limit_headers info
        (mkResponse (status response)
           (addRateLimitHeaders
              (headers_set "Cache-Control"
                 (if startsWith (pathname req) "/assets/"
                  then max_age STATIC_CACHE_MAX_AGE
                  else max_age DYNAMIC_CACHE_MAX_AGE) (headers response))
              info)
           (body response))).
      { apply addRateLimitHeaders_get. }
      destruct gz.
      * split; [by rewrite compressResponse_status|].
        by apply carries_compressResponse.
      * split; done.
    + right. left. split; [done|]. repeat split; by vm_compute.
  - right. right. split; [done|]. repeat split; by vm_compute.
Qed.

(** The handler asks the limiter once and answers with [answer]. *)
Lemma handler_answer w req (st : Store) :
  readDir_next w = Return tt ->
  handler gzip w req st =
    (answer gzip w req (decision w req st),
     (checkRateLimit (Date_now w) (clientIP req) st).2).
Proof.
  intros Hprobe. unfold handler, handle_try, answer, decision.
  rewrite Hprobe.
  destruct (checkRateLimit (Date_now w) (clientIP req) st) as [info st1].
  cbn [fst snd]. by destruct (route gzip w req info).
Qed.

Lemma handler_returns w req (st : Store) resp :
  (handler gzip w req st).1 = Return resp ->
  route gzip w req (decision w req st) = Return resp.
Proof.
  unfold handler, handle_try, decision.
  destruct (readDir_next w) as [[]|err]; [|discriminate].
  destruct (checkRateLimit (Date_now w) (clientIP req) st) as [info st1].
  cbn [fst].
  assert (Hroute : exists r, route gzip w req info = Return r).
  { unfold route. repeat (case_match; eauto). }
  destruct Hroute as [r Hr]. rewrite Hr. done.
Qed.

(** Where the rate-limit headers are.  A response of the handler whose
    status is in the 2xx range or 429, and the 404 response for a path
    that matches no route, carries [X-RateLimit-Limit],
    [X-RateLimit-Remaining] and [X-RateLimit-Reset] with the values of the
    limiter's decision, the reset time in epoch seconds (milliseconds
    divided by 1000, rounded up). *)
Theorem rate_limit_headers_present w req (st : Store) resp :
  (handler gzip w req st).1 = Return resp ->
  (200 <= status resp <= 299 \/
   status resp = 429 \/
   (status resp = 404 /\ is_asset_path (pathname req) = false)) ->
  carries_rate_limit_headers (decision w req st) resp.
Proof.
  intros Hret Hstatus. apply handler_returns in Hret.
  set (info := decision w req st) in *. clearbody info.
  unfold route in Hret.
  destruct (allowed info); cbn [negb] in Hret.
  - cbv zeta in Hret.
    case_bool_decide as Hcfg.
    { inversion Hret; subst resp. apply widget_config_carries. }
    destruct (bool_decide (pathname req = "/") ||
              bool_decide (pathname req = "/index.html")).
    { inversion Hret; subst resp.
      destruct (index_html_cases w info) as [[_ Hc]|[H500 _]]; [done|].
      rewrite H500 in Hstatus. lia. }
    destruct (is_asset_path (pathname req)) eqn:Hasset.
    { inversion Hret; subst resp.
      destruct (static_asset_cases w req (acceptsGzip req) info)
        as [[_ Hc]|[[H404 _]|[H500 _]]]; [done| |].
      - rewrite H404 in Hstatus.
        destruct Hstatus as [?|[?|[_ ?]]]; [lia | lia | discriminate].
      - rewrite H500 in Hstatus. lia. }
    inversion Hret; subst resp. apply not_found_carries.
  - inversion Hret; subst resp. apply rate_limit_exceeded_carries.
Qed.

(** The other responses: every 500 the handler builds, and the 404 of the
    static-assets branch, carry none of the three headers. *)
Lemma error_responses_lack_rate_limit_headers w req (st : Store) resp :
  (handler gzip w req st).1 = Return resp ->
  status resp = 500 \/
  (status resp = 404 /\ is_asset_path (pathname req) = true /\
   pathname req <> "/widget-config" /\ pathname req <> "/" /\
   pathname req <> "/index.html") ->
  lacks_rate_limit_headers resp.
Proof.
  intros Hret Hstatus. apply handler_returns in Hret.
  set (info := decision w req st) in *. clearbody info.
  unfold route in Hret.
  destruct (allowed info); cbn [negb] in Hret.
  - cbv zeta in Hret.
    case_bool_decide as Hcfg.
    { inversion Hret; subst resp.
      destruct (widget_config_carries (acceptsGzip req) info) as [H200 _].
      rewrite H200 in Hstatus. destruct Hstatus as [?|(? & _ & ? & _)]; [lia|done]. }
    destruct (bool_decide (pathname req = "/") ||
              bool_decide (pathname req = "/index.html")) eqn:Hidx.
    { inversion Hret; subst resp.
      destruct (index_html_cases w info) as [[H200 _]|[_ Hl]]; [|done].
      rewrite H200 in Hstatus.
      destruct Hstatus as [?|(? & _)]; lia. }
    destruct (is_asset_path (pathname req)) eqn:Hasset.
    { inversion Hret; subst resp.
      destruct (static_asset_cases w req (acceptsGzip req) info)
        as [[H2xx _]|[[_ Hl]|[_ Hl]]]; [|done|done].
      destruct Hstatus as [?|(? & _)]; lia. }
    inversion Hret; subst resp.
    destruct (not_found_carries info) as [H404 _].
    rewrite H404 in Hstatus.
    destruct Hstatus as [?|(_ & ? & _)]; [lia|discriminate].
  - inversion Hret; subst resp.
    destruct (rate_limit_exceeded_carries w info) as [H429 _].
    rewrite H429 in Hstatus. destruct Hstatus as [?|(? & _)]; lia.
Qed.

(** ** The server over a sequence of requests of one identity *)

Lemma serve_run ip (reqs : list (World * Request)) :
  forall st : Store,
    Forall (fun wr => readDir_next wr.1 = Return tt /\ clientIP wr.2 = ip) reqs ->
    serve gzip reqs st =
      (zip_with (fun wr d => answer gzip wr.1 wr.2 d) reqs
         (run (calls ip (map (fun wr => Date_now wr.1) reqs)) st).1,
       (run (calls ip (map (fun wr => Date_now wr.1) reqs)) st).2).
Proof.
  induction reqs as [|[w req] reqs IH]; intros st Hall; [done|].
  apply Forall_cons in Hall as [[Hprobe Hip] Hall]. cbn [fst snd] in *.
  cbn [serve map calls run]. fold (calls ip (map (fun wr => Date_now wr.1) reqs)).
  rewrite (handler_answer w req st Hprobe). unfold decision. rewrite Hip.
  cbn [fst snd].
  destruct (checkRateLimit (Date_now w) ip st) as [d st1]. cbn [fst snd].
  rewrite (IH st1 Hall).
  destruct (run (calls ip (map (fun wr => Date_now wr.1) reqs)) st1) as [ds st2].
  done.
Qed.

(** Over the limit.  An entry that is full and still inside its window
    rejects the call: [allowed = false], [remaining = 0], [reset] at the
    end of that window, and the table is returned as it was.  At the
    handler, for requests whose directory probe returns: when one identity
    sends N such requests inside one window (the first opens it), the
    requests after the first [RATE_LIMIT] are answered with status 429 and
    [X-RateLimit-Remaining: 0]. *)
Theorem over_limit_is_rejected :
  (forall now ip (st : Store) e,
     st !! ip = Some e ->
     count e >= RATE_LIMIT ->
     now - timestamp e <= RATE_WINDOW ->
     checkRateLimit now ip st =
       (mkInfo false 0 (timestamp e + RATE_WINDOW), st)) /\
  (forall ip (st : Store) w0 req0 (later : list (World * Request)),
     let reqs := (w0, req0) :: later in
     Forall (fun wr => readDir_next wr.1 = Return tt /\ clientIP wr.2 = ip) reqs ->
     opens_window (Date_now w0) ip st ->
     Forall (fun wr => Date_now wr.1 - Date_now w0 <= RATE_WINDOW) later ->
     forall k, (Z.to_nat RATE_LIMIT < k <= length reqs)%nat ->
       exists resp,
         (serve gzip reqs st).1 !! (k - 1)%nat = Some (Return resp) /\
         status resp = 429 /\
         headers_get "X-RateLimit-Remaining" (headers resp) = Some "0").
Proof.
  split.
  - intros now ip st e Hlk Hfull Hage.
    by apply (checkRateLimit_full now ip st e).
  - intros ip st w0 req0 later reqs Hall Hopen Hin k [Hk1 Hk2].
    rewrite (serve_run ip reqs st Hall).
    subst reqs. cbn [map fst].
    rewrite (run_one_window ip (Date_now w0)
               (map (fun wr => Date_now wr.1) later) st Hopen).
    2:{ apply Forall_map. eapply Forall_impl; [exact Hin|]. done. }
    cbn [fst]. rewrite length_map.
    cbn [length] in Hk2.
    destruct (lookup_lt_is_Some_2 ((w0, req0) :: later) (k - 1)%nat)
      as [[w req] Hwr]; [cbn [length]; lia|].
    assert (Hd : map (fun j => nth_decision (Date_now w0) (Z.of_nat j))
                   (seq 1 (S (length later))) !! (k - 1)%nat =
                 Some (mkInfo false 0 (Date_now w0 + RATE_WINDOW))).
    { apply lookup_window_decisions. split; [lia|].
      unfold nth_decision. rewrite bool_decide_eq_false_2; [done|].
      unfold RATE_LIMIT in *. lia. }
    exists (rate_limit_exceeded w (mkInfo false 0 (Date_now w0 + RATE_WINDOW))).
    split.
    + rewrite lookup_zip_with, Hwr, Hd. done.
    + split; [done|].
      destruct (rate_limit_exceeded_carries w
                  (mkInfo false 0 (Date_now w0 + RATE_WINDOW)))
        as [_ (_ & Hrem & _)].
      exact Hrem.
Qed.

(** ** The configuration document *)

(** Loading the module succeeds: both look-ups for chain 1 return. *)
Lemma build_WIDGET_CONFIG_returns : build_WIDGET_CONFIG = Return WIDGET_CONFIG.
Proof. reflexivity. Qed.

Lemma config_bytes_encode :
  Utf8.encode (Utf8.of_literal (JSON_stringify WIDGET_CONFIG)) = config_bytes.
Proof. by vm_compute. Qed.

Lemma config_bytes_text : Utf8.encode (Utf8.decode config_bytes) = config_bytes.
Proof. by vm_compute. Qed.

Lemma widget_config_body gz info :
  body (widget_config gzip gz info) =
    if gz then gzip config_bytes else config_bytes.
Proof.
  unfold widget_config. destruct gz.
  - unfold compressResponse, new_Response_bytes, text, new_Response.
    cbn [body]. by rewrite config_bytes_encode, config_bytes_text.
  - unfold new_Response. cbn [body]. apply config_bytes_encode.
Qed.

Lemma handler_widget_config w req (st : Store) :
  pathname req = "/widget-config" ->
  readDir_next w = Return tt ->
  allowed (decision w req st) = true ->
  (handler gzip w req st).1 =
    Return (widget_config gzip (acceptsGzip req) (decision w req st)).
Proof.
  intros Hpath Hprobe Hallowed.
  rewrite (handler_answer w req st Hprobe). cbn [fst].
  unfold answer, route. rewrite Hallowed. cbn [negb].
  by rewrite bool_decide_eq_true_2.
Qed.

(** C9.  Two admitted requests for [/widget-config], made in any two
    worlds (clock readings, file system) and against any two tables, with
    the same answer to "does the client accept gzip", get status 200 and
    the same body, byte for byte: the serialized configuration, a constant
    of the program, passed through [gzip] when the client accepts it. *)
Theorem widget_config_is_deterministic
        w1 req1 (st1 : Store) w2 req2 (st2 : Store) :
  pathname req1 = "/widget-config" ->
  pathname req2 = "/widget-config" ->
  readDir_next w1 = Return tt ->
  readDir_next w2 = Return tt ->
  allowed (decision w1 req1 st1) = true ->
  allowed (decision w2 req2 st2) = true ->
  acceptsGzip req1 = acceptsGzip req2 ->
  exists r1 r2,
    (handler gzip w1 req1 st1).1 = Return r1 /\
    (handler gzip w2 req2 st2).1 = Return r2 /\
    status r1 = 200 /\ status r2 = 200 /\
    body r1 = body r2 /\
    body r1 = (if acceptsGzip req1 then gzip config_bytes else config_bytes).
Proof.
  intros Hp1 Hp2 Hr1 Hr2 Ha1 Ha2 Hgz.
  exists (widget_config gzip (acceptsGzip req1) (decision w1 req1 st1)).
  exists (widget_config gzip (acceptsGzip req2) (decision w2 req2 st2)).
  split; [by apply handler_widget_config|].
  split; [by apply handler_widget_config|].
  split; [apply widget_config_carries|].
  split; [apply widget_config_carries|].
  rewrite !widget_config_body, Hgz. done.
Qed.

(** ** Compression *)

Lemma decode_from_ascii (bytes : list byte) :
  ascii_bytes bytes ->
  Utf8.decode_from Utf8.initial (map Byte.to_N bytes) = map Byte.to_N bytes.
Proof.
  induction 1 as [|b bytes Hb _ IH]; [done|].
  cbn [map Utf8.decode_from Utf8.initial Utf8.bytes_needed].
  cbn [N.eqb]. unfold Utf8.lead.
  destruct (N.leb_spec (Byte.to_N b) 127) as [_|Hgt]; [|lia].
  cbn [app]. by rewrite IH.
Qed.

Lemma strip_BOM_ascii (bytes : list byte) :
  ascii_bytes bytes ->
  Utf8.strip_BOM (map Byte.to_N bytes) = map Byte.to_N bytes.
Proof.
  intros Hascii. destruct Hascii as [|b bytes Hb _]; [done|].
  cbn [map]. unfold Utf8.strip_BOM.
  destruct (Byte.to_N b) as [|p] eqn:E; [done|].
  assert (Hp : (N.pos p < 128)%N) by done.
  repeat (destruct p as [p|p|]; try done; try lia).
Qed.

Lemma encode_ascii (bytes : list byte) :
  ascii_bytes bytes -> Utf8.encode (map Byte.to_N bytes) = bytes.
Proof.
  induction 1 as [|b bytes Hb _ IH]; [done|].
  unfold Utf8.encode in *. cbn [map concat]. rewrite IH.
  unfold Utf8.encode_code_point.
  destruct (N.ltb_spec (Byte.to_N b) 128) as [_|Hge]; [|lia].
  cbn [map app]. unfold Utf8.byte_of_N. by rewrite Byte.of_to_N.
Qed.

(** On a body of 7-bit characters, decoding and encoding again gives the
    body back. *)
Lemma text_encode_ascii (bytes : list byte) :
  ascii_bytes bytes -> Utf8.encode (Utf8.decode bytes) = bytes.
Proof.
  intros Hascii. unfold Utf8.decode.
  rewrite strip_BOM_ascii, decode_from_ascii by done.
  by apply encode_ascii.
Qed.

(** What [compressResponse] keeps its promise on: status, the other
    headers, the two headers it sets, and the body when that is 7-bit
    text. *)
Lemma compressResponse_on_ascii (gunzip : list byte -> list byte)
      (response : Response) :
  (forall bytes, gunzip (gzip bytes) = bytes) ->
  ascii_bytes (body response) ->
  let compressed := compressResponse gzip response in
  gunzip (body compressed) = body response /\
  headers_get "Content-Encoding" (headers compressed) = Some "gzip" /\
  headers_get "Content-Length" (headers compressed) =
    Some (toString (Z.of_nat (length (body compressed)))) /\
  status compressed = status response /\
  (forall name,
     toLowerCase "Content-Encoding" <> toLowerCase name ->
     toLowerCase "Content-Length" <> toLowerCase name ->
     headers_get name (headers compressed) =
       headers_get name (headers response)).
Proof.
  intros Hinv Hascii compressed. subst compressed.
  repeat split.
  - unfold compressResponse, new_Response_bytes, text. cbn [body].
    by rewrite Hinv, text_encode_ascii.
  - unfold compressResponse, new_Response_bytes. cbn [headers].
    rewrite headers_get_set_ne by (vm_compute; discriminate).
    apply headers_get_set_eq.
  - unfold compressResponse, new_Response_bytes. cbn [headers body].
    apply headers_get_set_eq.
  - intros name H1 H2. by apply compressResponse_headers.
Qed.

(** Without gzip in [accept-encoding], an asset that [serveDir] found is
    passed on with its own status and body, and no content encoding is
    added. *)
Lemma static_asset_uncompressed w req info (response : Response) :
  serveDir w req = Return response ->
  ok response = true ->
  let sent := static_asset gzip w req false info in
  status sent = status response /\
  body sent = body response /\
  headers_get "Content-Encoding" (headers sent) =
    headers_get "Content-Encoding" (headers response).
Proof.
  intros Hserve Hok sent. subst sent. unfold static_asset.
  rewrite Hserve, Hok. cbn [negb status body headers].
  repeat split. unfold addRateLimitHeaders.
  by rewrite !headers_get_set_ne by (vm_compute; discriminate).
Qed.

(** C8 fails on a binary body.  [compressResponse] on a response whose
    body is the first eight bytes of a PNG file: the bytes that come out
    of decompression are not the bytes of the body.  [response.text()]
    has decoded the body as UTF-8, and its first byte, 0x89, is not UTF-8:
    it has become U+FFFD, three bytes.  The status and the two headers are
    as the function sets them. *)
Theorem compressResponse_alters_binary_body (gunzip : list byte -> list byte) :
  (forall bytes, gunzip (gzip bytes) = bytes) ->
  let compressed := compressResponse gzip png_response in
  status compressed = 200 /\
  headers_get "Content-Encoding" (headers compressed) = Some "gzip" /\
  gunzip (body compressed) =
    [xef; xbf; xbd; x50; x4e; x47; x0d; x0a; x1a; x0a] /\
  gunzip (body compressed) <> body png_response.
Proof.
  intros Hinv compressed. subst compressed.
  assert (Hbody : gunzip (body (compressResponse gzip png_response)) =
                  [xef; xbf; xbd; x50; x4e; x47; x0d; x0a; x1a; x0a]).
  { unfold compressResponse, new_Response_bytes, text. cbn [body].
    rewrite Hinv. by vm_compute. }
  split; [reflexivity|].
  split; [reflexivity|].
  split; [exact Hbody|].
  rewrite Hbody. discriminate.
Qed.

End ServerProperties.

(** ** The properties at concrete inputs *)

Lemma framing_gunzip_gzip bytes : framing_gunzip (framing_gzip bytes) = bytes.
Proof. reflexivity. Defined.

Lemma over_limit_is_rejected_witness :
  checkRateLimit 30000 "203.0.113.7" {[ "203.0.113.7" := mkWindow 50 0 ]} =
    (mkInfo false 0 (0 + RATE_WINDOW), {[ "203.0.113.7" := mkWindow 50 0 ]}) /\
  exists resp,
    (serve framing_gzip
       ((empty_disk 1000, get "/") :: replicate 51 (empty_disk 2000, get "/"))
       ∅).1 !! (52 - 1)%nat = Some (Return resp) /\
    status resp = 429 /\
    headers_get "X-RateLimit-Remaining" (headers resp) = Some "0".
Proof.
  split.
  - apply (proj1 (over_limit_is_rejected framing_gzip) 30000 "203.0.113.7"
             {[ "203.0.113.7" := mkWindow 50 0 ]} (mkWindow 50 0)).
    + apply lookup_singleton_eq.
    + simpl. unfold RATE_LIMIT. lia.
    + simpl. unfold RATE_WINDOW. lia.
  - apply (proj2 (over_limit_is_rejected framing_gzip) "203.0.113.7" ∅
             (empty_disk 1000) (get "/")
             (replicate 51 (empty_disk 2000, get "/")) ).
    + apply Forall_cons. split; [split; reflexivity|].
      apply Forall_replicate. split; reflexivity.
    + unfold opens_window. rewrite lookup_empty. exact I.
    + apply Forall_replicate. simpl. unfold RATE_WINDOW. lia.
    + change (Z.to_nat RATE_LIMIT) with 50%nat.
      cbn [length]. rewrite length_replicate. lia.
Defined.

Lemma rate_limit_headers_present_witness :
  exists resp,
    (handler framing_gzip (empty_disk 1000) (get "/no/such/page") ∅).1 =
      Return resp /\
    status resp = 404 /\
    carries_rate_limit_headers
      (decision (empty_disk 1000) (get "/no/such/page") ∅) resp.
Proof.
  exists (not_found (mkInfo true 49 31000)).
  split; [reflexivity|]. split; [reflexivity|].
  apply (rate_limit_headers_present framing_gzip (empty_disk 1000)
           (get "/no/such/page") ∅ (not_found (mkInfo true 49 31000))).
  - reflexivity.
  - right. right. split; reflexivity.
Defined.

Lemma widget_config_is_deterministic_witness :
  exists r1 r2,
    (handler framing_gzip (empty_disk 1000) (get_gzip "/widget-config") ∅).1 =
      Return r1 /\
    (handler framing_gzip (empty_disk 86400000) (get_gzip "/widget-config")
       {[ "203.0.113.7" := mkWindow 7 86390000 ]}).1 = Return r2 /\
    status r1 = 200 /\ status r2 = 200 /\
    body r1 = body r2 /\
    body r1 = (if acceptsGzip (get_gzip "/widget-config")
               then framing_gzip config_bytes else config_bytes).
Proof.
  apply (widget_config_is_deterministic framing_gzip
           (empty_disk 1000) (get_gzip "/widget-config") ∅
           (empty_disk 86400000) (get_gzip "/widget-config")
           {[ "203.0.113.7" := mkWindow 7 86390000 ]});
    reflexivity.
Defined.

Lemma compressResponse_alters_binary_body_witness :
  let compressed := compressResponse framing_gzip png_response in
  status compressed = 200 /\
  headers_get "Content-Encoding" (headers compressed) = Some "gzip" /\
  framing_gunzip (body compressed) =
    [xef; xbf; xbd; x50; x4e; x47; x0d; x0a; x1a; x0a] /\
  framing_gunzip (body compressed) <> body png_response.
Proof.
  apply (compressResponse_alters_binary_body framing_gzip framing_gunzip).
  intros bytes. reflexivity.
Defined.

(* ===================================================================== *)
(** * Part III: further properties of the code                            *)
(* ===================================================================== *)

(** ** The limiter's table *)

(** A call never removes an entry: afterwards the table holds the entries
    it held and one for the caller, and every entry but the caller's is
    what it was. *)
Theorem checkRateLimit_frame now ip (st : Store) :
  dom (checkRateLimit now ip st).2 = {[ ip ]} ∪ dom st /\
  (forall ip', ip' <> ip -> (checkRateLimit now ip st).2 !! ip' = st !! ip').
Proof.
  split.
  - check_cases now ip st; cbn [snd]; rewrite ?dom_insert_L; try done.
    apply elem_of_dom_2 in Hlk.
    apply set_eq. intros x. rewrite elem_of_union, elem_of_singleton.
    split; [tauto|]. by intros [->|?].
  - intros ip' Hne. check_cases now ip st; cbn [snd];
      by rewrite ?lookup_insert_ne.
Qed.

Lemma store_wf_insert ip e (st : Store) :
  1 <= count e <= RATE_LIMIT -> store_wf st -> store_wf (<[ip := e]> st).
Proof.
  intros He Hwf ip' e' Hlk.
  destruct (decide (ip = ip')) as [->|Hne].
  - rewrite lookup_insert_eq in Hlk. by inversion Hlk; subst.
  - rewrite lookup_insert_ne in Hlk by done. by apply (Hwf ip').
Qed.

Lemma checkRateLimit_wf now ip (st : Store) :
  store_wf st -> store_wf (checkRateLimit now ip st).2.
Proof.
  intros Hwf. check_cases now ip st; cbn [snd].
  - apply store_wf_insert; [unfold RATE_LIMIT; simpl; lia | done].
  - done.
  - apply store_wf_insert; [|done]. specialize (Hwf ip e Hlk). simpl. lia.
  - apply store_wf_insert; [unfold RATE_LIMIT; simpl; lia | done].
Qed.

Lemma sweep_wf now (st : Store) : store_wf st -> store_wf (sweep now st).
Proof.
  intros Hwf ip e Hlk. rewrite sweep_lookup in Hlk.
  destruct (st !! ip) as [e0|] eqn:E; [|done].
  case_bool_decide; [done|]. inversion Hlk; subst. by apply (Hwf ip).
Qed.

Lemma store_wf_empty : store_wf ∅.
Proof. intros ip e H. by rewrite lookup_empty in H. Qed.

Lemma run_wf (evs : list event) :
  forall st : Store, store_wf st -> store_wf (run evs st).2.
Proof.
  induction evs as [|[now ip|now] evs IH]; intros st Hwf.
  - done.
  - cbn [run].
    pose proof (checkRateLimit_wf now ip st Hwf) as H1.
    destruct (checkRateLimit now ip st) as [d st1]. cbn [snd] in H1.
    specialize (IH st1 H1).
    destruct (run evs st1) as [ds st2]. done.
  - cbn [run]. apply IH. by apply sweep_wf.
Qed.

Lemma checkRateLimit_reports now ip (st : Store) :
  store_wf st ->
  store_wf (checkRateLimit now ip st).2 /\
  (exists e, (checkRateLimit now ip st).2 !! ip = Some e /\
             remaining (checkRateLimit now ip st).1 = RATE_LIMIT - count e) /\
  0 <= remaining (checkRateLimit now ip st).1 <= RATE_LIMIT - 1 /\
  (allowed (checkRateLimit now ip st).1 = false ->
   remaining (checkRateLimit now ip st).1 = 0 /\
   (checkRateLimit now ip st).2 = st).
Proof.
  intros Hwf.
  pose proof (checkRateLimit_wf now ip st Hwf) as Hwf'.
  revert Hwf'. check_cases now ip st; cbn [fst snd]; intros Hwf'.
  - split; [done|]. split.
    + exists (mkWindow 1 now). by rewrite lookup_insert_eq.
    + unfold RATE_LIMIT; simpl. split; [lia|]. discriminate.
  - specialize (Hwf ip e Hlk).
    split; [done|]. split.
    + exists e. split; [done|]. simpl. lia.
    + simpl. unfold RATE_LIMIT in *. split; [lia|]. done.
  - specialize (Hwf ip e Hlk).
    split; [done|]. split.
    + eexists. rewrite lookup_insert_eq. split; [done|]. done.
    + simpl. split; [lia|]. discriminate.
  - split; [done|]. split.
    + exists (mkWindow 1 now). by rewrite lookup_insert_eq.
    + unfold RATE_LIMIT; simpl. split; [lia|]. discriminate.
Qed.

(** On a table whose counters are between 1 and the limit, the decision
    reports the quota left in the caller's entry as it stands after the
    call: [remaining = RATE_LIMIT - count], a number from 0 to
    [RATE_LIMIT - 1]; a rejection means the entry is full and leaves the
    table untouched; and the counters stay between 1 and the limit. *)
Theorem decision_reports_entry now ip (st : Store) :
  store_wf st ->
  let '(d, st') := checkRateLimit now ip st in
  store_wf st' /\
  (exists e, st' !! ip = Some e /\ remaining d = RATE_LIMIT - count e) /\
  0 <= remaining d <= RATE_LIMIT - 1 /\
  (allowed d = false -> remaining d = 0 /\ st' = st).
Proof.
  intros Hwf. pose proof (checkRateLimit_reports now ip st Hwf) as H.
  by destruct (checkRateLimit now ip st) as [d st'].
Qed.

Lemma decision_reports_entry_witness :
  let '(d, st') :=
    checkRateLimit 100 "203.0.113.7" {[ "203.0.113.7" := mkWindow 50 0 ]} in
  store_wf st' /\
  (exists e, st' !! "203.0.113.7" = Some e /\ remaining d = RATE_LIMIT - count e) /\
  0 <= remaining d <= RATE_LIMIT - 1 /\
  (allowed d = false ->
   remaining d = 0 /\ st' = {[ "203.0.113.7" := mkWindow 50 0 ]}).
Proof.
  apply (decision_reports_entry 100 "203.0.113.7"
           {[ "203.0.113.7" := mkWindow 50 0 ]}).
  intros ip e H. apply lookup_singleton_Some in H as [_ <-].
  simpl. unfold RATE_LIMIT. lia.
Defined.

(** Along every trace of calls and sweeps from the server's initial, empty
    table, each decision has [remaining] between 0 and [RATE_LIMIT - 1],
    and a rejection always reports 0. *)
Theorem remaining_in_range (evs : list event) :
  Forall (fun d => 0 <= remaining d <= RATE_LIMIT - 1 /\
                   (allowed d = false -> remaining d = 0))
         (run evs ∅).1.
Proof.
  assert (Hgen : forall st : Store, store_wf st ->
    Forall (fun d => 0 <= remaining d <= RATE_LIMIT - 1 /\
                     (allowed d = false -> remaining d = 0))
           (run evs st).1).
  { induction evs as [|[now ip|now] evs IH]; intros st Hwf.
    - constructor.
    - cbn [run].
      pose proof (checkRateLimit_reports now ip st Hwf) as Hd.
      destruct (checkRateLimit now ip st) as [d st1]. cbn [fst snd] in Hd.
      destruct Hd as (Hwf1 & _ & Hrange & Hrej).
      specialize (IH st1 Hwf1).
      destruct (run evs st1) as [ds st2]. cbn [fst] in *.
      constructor; [|done]. split; [done|]. intros Hf. by apply Hrej.
    - cbn [run]. apply IH. by apply sweep_wf. }
  apply Hgen, store_wf_empty.
Qed.

(** The reset time of a decision is never before the call; when no stored
    window starts in the future, it is at most one window duration after
    the call, and the table still has no window that starts in the
    future. *)
Theorem reset_is_ahead now ip (st : Store) :
  now <= reset (checkRateLimit now ip st).1 /\
  (no_future_entries now st ->
   reset (checkRateLimit now ip st).1 <= now + RATE_WINDOW /\
   no_future_entries now (checkRateLimit now ip st).2).
Proof.
  assert (Hins : forall e, timestamp e <= now -> no_future_entries now st ->
                           no_future_entries now (<[ip := e]> st)).
  { intros e0 He Hnf ip' e' Hlk'.
    destruct (decide (ip = ip')) as [->|Hne].
    - rewrite lookup_insert_eq in Hlk'. by inversion Hlk'; subst.
    - rewrite lookup_insert_ne in Hlk' by done. by apply (Hnf ip'). }
  check_cases now ip st; cbn [fst snd reset].
  - split; [unfold RATE_WINDOW; lia|]. intros Hnf. split; [lia|].
    apply Hins; [simpl; lia | done].
  - split; [lia|]. intros Hnf. split; [|done].
    specialize (Hnf ip e Hlk). lia.
  - split; [simpl; lia|]. intros Hnf. specialize (Hnf ip e Hlk) as Hts.
    split; [simpl; lia|]. apply Hins; [simpl; lia | done].
  - split; [unfold RATE_WINDOW; lia|]. intros Hnf. split; [lia|].
    apply Hins; [simpl; lia | done].
Qed.

Lemma reset_is_ahead_witness :
  reset (checkRateLimit 20000 "203.0.113.7"
           {[ "203.0.113.7" := mkWindow 3 5000 ]}).1 <= 20000 + RATE_WINDOW /\
  no_future_entries 20000
    (checkRateLimit 20000 "203.0.113.7"
       {[ "203.0.113.7" := mkWindow 3 5000 ]}).2.
Proof.
  apply (proj2 (reset_is_ahead 20000 "203.0.113.7"
                  {[ "203.0.113.7" := mkWindow 3 5000 ]})).
  intros ip e H. apply lookup_singleton_Some in H as [_ <-]. simpl. lia.
Defined.

(** ** The sweep *)

(** A sweep only removes: what it leaves is part of the table it was
    given.  A later sweep absorbs an earlier one, so sweeping twice at the
    same time is sweeping once. *)
Theorem sweep_absorbs t t' (st : Store) :
  sweep t st ⊆ st /\
  (t <= t' -> sweep t' (sweep t st) = sweep t' st) /\
  sweep t (sweep t st) = sweep t st.
Proof.
  assert (Habs : forall u u', u <= u' -> sweep u' (sweep u st) = sweep u' st).
  { intros u u' Hle. apply map_eq. intros ip. rewrite !sweep_lookup.
    destruct (st !! ip) as [e|]; [|done].
    repeat case_bool_decide; try done; lia. }
  split; [|split].
  - apply map_subseteq_spec. intros ip e. rewrite sweep_lookup.
    destruct (st !! ip) as [e0|]; [|done]. by case_bool_decide.
  - apply Habs.
  - apply Habs. lia.
Qed.

Lemma sweep_absorbs_witness :
  sweep 50000 (sweep 40000 {[ "203.0.113.7" := mkWindow 3 5000;
                              "198.51.100.2" := mkWindow 1 15000 ]}) =
  sweep 50000 {[ "203.0.113.7" := mkWindow 3 5000;
                 "198.51.100.2" := mkWindow 1 15000 ]}.
Proof.
  apply (proj1 (proj2 (sweep_absorbs 40000 50000 _))). lia.
Defined.

(** ** One identity among the others *)

Lemma decisions_for_call ip now ip' (evs : list event) (st : Store) :
  decisions_for ip (Call now ip' :: evs) st =
    (if bool_decide (ip' = ip) then [(checkRateLimit now ip' st).1] else []) ++
    decisions_for ip evs (checkRateLimit now ip' st).2.
Proof.
  unfold decisions_for. cbn [callers run].
  destruct (checkRateLimit now ip' st) as [d st1]. cbn [fst snd].
  destruct (run evs st1) as [ds st2]. cbn [fst zip zip_with].
  rewrite filter_cons. cbn [fst].
  case_bool_decide as Hip.
  - rewrite decide_True by done. done.
  - rewrite decide_False by done. done.
Qed.

Lemma decisions_for_sweep ip now (evs : list event) (st : Store) :
  decisions_for ip (Sweep now :: evs) st = decisions_for ip evs (sweep now st).
Proof. done. Qed.

Lemma live_view_later now now' (o1 o2 : option ClientWindow) :
  now <= now' ->
  live_view now o1 = live_view now o2 ->
  live_view now' o1 = live_view now' o2.
Proof.
  intros Hle. unfold live_view.
  destruct o1 as [e1|], o2 as [e2|]; repeat case_bool_decide;
    intros Heq; simplify_eq; try done; lia.
Qed.

(** A call decides on what is live of the caller's entry, and leaves the
    same entry whatever else the table held. *)
Lemma checkRateLimit_live_view now ip (a b : Store) :
  live_view now (a !! ip) = live_view now (b !! ip) ->
  (checkRateLimit now ip a).1 = (checkRateLimit now ip b).1 /\
  (checkRateLimit now ip a).2 !! ip = (checkRateLimit now ip b).2 !! ip.
Proof.
  unfold live_view, checkRateLimit. intros Hview.
  destruct (a !! ip) as [ea|] eqn:Ha, (b !! ip) as [eb|] eqn:Hb;
    repeat case_bool_decide; simplify_eq; cbn [fst snd];
    rewrite ?lookup_insert_eq, ?Ha, ?Hb; try done; lia.
Qed.

Lemma sweep_live_view now ip (st : Store) :
  live_view now (sweep now st !! ip) = live_view now (st !! ip).
Proof.
  rewrite sweep_lookup. unfold live_view.
  destruct (st !! ip) as [e|]; [|done].
  case_bool_decide as Hage; [done|]. by rewrite bool_decide_eq_false_2.
Qed.

Lemma decisions_for_calls_of ip (evs : list event) :
  forall now (a b : Store),
    live_view now (a !! ip) = live_view now (b !! ip) ->
    nondecreasing_from now evs ->
    decisions_for ip evs a = (run (calls_of ip evs) b).1.
Proof.
  induction evs as [|[t ip'|t] evs IH]; intros now a b Hview Hmono.
  - done.
  - destruct Hmono as [Hle Hmono]. cbn [event_time] in *.
    apply (live_view_later now t) in Hview; [|done].
    rewrite decisions_for_call. cbn [calls_of].
    case_bool_decide as Hip.
    + subst ip'. cbn [run].
      destruct (checkRateLimit_live_view t ip a b Hview) as [Hd Hentry].
      rewrite (IH t (checkRateLimit t ip a).2 (checkRateLimit t ip b).2);
        [|by rewrite Hentry|done].
      destruct (checkRateLimit t ip a) as [da a1].
      destruct (checkRateLimit t ip b) as [db b1].
      cbn [fst snd] in *. subst db.
      by destruct (run (calls_of ip evs) b1).
    + cbn [app]. apply (IH t); [|done].
      by rewrite checkRateLimit_other.
  - destruct Hmono as [Hle Hmono]. cbn [event_time] in *.
    apply (live_view_later now t) in Hview; [|done].
    rewrite decisions_for_sweep. cbn [calls_of].
    apply (IH t); [|done]. by rewrite sweep_live_view.
Qed.

(** The decisions one identity gets do not depend on the traffic of the
    others nor on the timer: along a trace whose clock values do not
    decrease, they are the decisions the identity would get if its calls
    were the only events. *)
Theorem identities_are_isolated ip t0 (evs : list event) (st : Store) :
  nondecreasing_from t0 evs ->
  decisions_for ip evs st = (run (calls_of ip evs) st).1.
Proof. intros Hmono. by apply (decisions_for_calls_of ip evs t0). Qed.

Lemma identities_are_isolated_witness :
  decisions_for "203.0.113.7"
    [Call 0 "203.0.113.7"; Call 10 "198.51.100.2"; Sweep 15000;
     Call 20000 "203.0.113.7"; Call 20001 "198.51.100.2"; Sweep 30500;
     Call 31000 "203.0.113.7"] ∅ =
  (run (calls_of "203.0.113.7"
          [Call 0 "203.0.113.7"; Call 10 "198.51.100.2"; Sweep 15000;
           Call 20000 "203.0.113.7"; Call 20001 "198.51.100.2"; Sweep 30500;
           Call 31000 "203.0.113.7"]) ∅).1.
Proof.
  apply (identities_are_isolated "203.0.113.7" 0).
  simpl. lia.
Defined.

(** ** The burst a fixed window lets through *)

Lemma admitted_cons d (ds : list RateLimitInfo) :
  admitted (d :: ds) = ((if allowed d then 1 else 0) + admitted ds)%nat.
Proof.
  unfold admitted. rewrite filter_cons.
  destruct (allowed d); [by rewrite decide_True | by rewrite decide_False].
Qed.

Lemma run_calls_cons ip t (times : list Z) (st : Store) :
  (run (calls ip (t :: times)) st).1 =
    (checkRateLimit t ip st).1 ::
    (run (calls ip times) (checkRateLimit t ip st).2).1.
Proof.
  cbn [calls map run]. fold (calls ip times).
  destruct (checkRateLimit t ip st) as [d st1]. cbn [fst snd].
  by destruct (run (calls ip times) st1).
Qed.

(** Calls that stay inside the window of an entry with count [c]: at most
    [RATE_LIMIT - c] of them are admitted. *)
Lemma admitted_inside_window ip s (times : list Z) :
  forall (c : Z) (st : Store),
    st !! ip = Some (mkWindow c s) ->
    c <= RATE_LIMIT ->
    Forall (fun t => t - s <= RATE_WINDOW) times ->
    Z.of_nat (admitted (run (calls ip times) st).1) <= RATE_LIMIT - c.
Proof.
  induction times as [|t times IH]; intros c st Hst Hc Hin.
  - cbn. lia.
  - apply Forall_cons in Hin as [Ht Hin].
    rewrite run_calls_cons, admitted_cons.
    destruct (decide (c < RATE_LIMIT)) as [Hlt|Hge].
    + rewrite (checkRateLimit_bump t ip st _ Hst) by (simpl; lia).
      cbn [fst snd allowed count timestamp].
      specialize (IH (c + 1) (<[ip := mkWindow (c + 1) s]> st)).
      rewrite lookup_insert_eq in IH.
      specialize (IH eq_refl ltac:(lia) Hin). lia.
    + rewrite (checkRateLimit_full t ip st _ Hst) by (simpl; lia).
      cbn [fst snd allowed].
      specialize (IH c st Hst Hc Hin). lia.
Qed.

(** A call that opens a window at a time inside [[a, a + RATE_WINDOW]],
    followed by calls inside the same interval: at most [RATE_LIMIT] are
    admitted. *)
Lemma admitted_fresh_window ip a t (times : list Z) (st : Store) :
  a <= t ->
  Forall (fun t' => a <= t' <= a + RATE_WINDOW) times ->
  Z.of_nat (admitted (run (calls ip times) (<[ip := mkWindow 1 t]> st)).1)
    <= RATE_LIMIT - 1.
Proof.
  intros Hat Hin.
  apply (admitted_inside_window ip t times 1).
  - by rewrite lookup_insert_eq.
  - unfold RATE_LIMIT. lia.
  - eapply Forall_impl; [exact Hin|]. simpl. intros t' Ht'. lia.
Qed.

Lemma admitted_in_interval ip a (times : list Z) :
  forall (c s : Z) (st : Store),
    st !! ip = Some (mkWindow c s) ->
    c <= RATE_LIMIT ->
    Forall (fun t => a <= t <= a + RATE_WINDOW) times ->
    Z.of_nat (admitted (run (calls ip times) st).1) <=
      (RATE_LIMIT - c) + RATE_LIMIT.
Proof.
  induction times as [|t times IH]; intros c s st Hst Hc Hin.
  - cbn. unfold RATE_LIMIT in *. lia.
  - apply Forall_cons in Hin as [Ht Hin].
    rewrite run_calls_cons, admitted_cons.
    destruct (decide (t - s > RATE_WINDOW)) as [Hold|Hin_old].
    + rewrite (checkRateLimit_expired t ip st _ Hst) by (simpl; lia).
      cbn [fst snd allowed].
      pose proof (admitted_fresh_window ip a t times st ltac:(lia) Hin).
      lia.
    + destruct (decide (c < RATE_LIMIT)) as [Hlt|Hge].
      * rewrite (checkRateLimit_bump t ip st _ Hst) by (simpl; lia).
        cbn [fst snd allowed count timestamp].
        specialize (IH (c + 1) s (<[ip := mkWindow (c + 1) s]> st)).
        rewrite lookup_insert_eq in IH.
        specialize (IH eq_refl ltac:(lia) Hin). lia.
      * rewrite (checkRateLimit_full t ip st _ Hst) by (simpl; lia).
        cbn [fst snd allowed].
        specialize (IH c s st Hst Hc Hin). lia.
Qed.

(** The burst of a fixed window.  Of the consecutive calls of one identity
    whose clock values all lie in one interval of the length of a window,
    at most [2 * RATE_LIMIT - 1] are admitted, whatever the table held
    before (counters between 1 and the limit); at most [RATE_LIMIT] when
    the identity had no entry. *)
Theorem burst_is_bounded ip a (times : list Z) (st : Store) :
  store_wf st ->
  Forall (fun t => a <= t <= a + RATE_WINDOW) times ->
  Z.of_nat (admitted (run (calls ip times) st).1) <= 2 * RATE_LIMIT - 1 /\
  (st !! ip = None ->
   Z.of_nat (admitted (run (calls ip times) st).1) <= RATE_LIMIT).
Proof.
  intros Hwf Hin.
  assert (Hnone : st !! ip = None ->
    Z.of_nat (admitted (run (calls ip times) st).1) <= RATE_LIMIT).
  { intros Hlk. destruct times as [|t times]; [cbn; unfold RATE_LIMIT; lia|].
    apply Forall_cons in Hin as [Ht Hin].
    rewrite run_calls_cons, admitted_cons.
    rewrite (checkRateLimit_absent t ip st Hlk). cbn [fst snd allowed].
    pose proof (admitted_fresh_window ip a t times st ltac:(lia) Hin). lia. }
  split; [|exact Hnone].
  destruct (st !! ip) as [[c s]|] eqn:Hlk.
  - specialize (Hwf ip _ Hlk). cbn [count] in Hwf.
    pose proof (admitted_in_interval ip a times c s st Hlk ltac:(lia) Hin).
    lia.
  - specialize (Hnone eq_refl). unfold RATE_LIMIT in *. lia.
Qed.

Lemma burst_is_bounded_witness :
  Z.of_nat (admitted (run (calls "203.0.113.7" [30000; 30000; 30001; 45000])
                        {[ "203.0.113.7" := mkWindow 49 0 ]}).1)
    <= 2 * RATE_LIMIT - 1.
Proof.
  apply (proj1 (burst_is_bounded "203.0.113.7" 30000
                  [30000; 30000; 30001; 45000]
                  {[ "203.0.113.7" := mkWindow 49 0 ]}
                  ltac:(intros ip e H; apply lookup_singleton_Some in H as [_ <-];
                        simpl; unfold RATE_LIMIT; lia)
                  ltac:(repeat constructor; unfold RATE_WINDOW; lia))).
Defined.

(** The bound is reached: one call at time 0, then 49 calls at the last
    millisecond of that window and 50 calls one millisecond later; the 99
    calls made within [[30000, 60000]] are all admitted. *)
Lemma burst_bound_is_reached :
  let st := (run (calls "203.0.113.7" [0]) ∅).2 in
  let times := replicate 49 30000 ++ replicate 50 30001 in
  Forall (fun t => 30000 <= t <= 30000 + RATE_WINDOW) times /\
  admitted (run (calls "203.0.113.7" times) st).1 = 99%nat.
Proof.
  split.
  - apply Forall_app. split; apply Forall_replicate; unfold RATE_WINDOW; lia.
  - by vm_compute.
Qed.

(** ** The identity of a request *)

Lemma truthy_nonempty s : truthy s = true <-> s <> EmptyString.
Proof.
  unfold truthy. case_bool_decide; split; intros; simpl in *; congruence.
Qed.

(** The identity of a request is never the empty string.  It is the text
    before the first comma of [x-forwarded-for] when that text is not
    empty; otherwise the value of [x-real-ip] when there is one and it is
    not empty; otherwise (no [x-forwarded-for] or an empty first entry,
    and no [x-real-ip] or an empty one) it is "unknown": requests without
    a usable header share one bucket. *)
Theorem clientIP_cases (req : Request) :
  clientIP req <> EmptyString /\
  (forall v, headers_get "x-forwarded-for" (req_headers req) = Some v ->
             split_comma_first v <> EmptyString ->
             clientIP req = split_comma_first v) /\
  (forall v, (headers_get "x-forwarded-for" (req_headers req) = None \/
              exists f, headers_get "x-forwarded-for" (req_headers req) = Some f /\
                        split_comma_first f = EmptyString) ->
             headers_get "x-real-ip" (req_headers req) = Some v ->
             v <> EmptyString ->
             clientIP req = v) /\
  ((headers_get "x-forwarded-for" (req_headers req) = None \/
    exists f, headers_get "x-forwarded-for" (req_headers req) = Some f /\
              split_comma_first f = EmptyString) ->
   (headers_get "x-real-ip" (req_headers req) = None \/
    headers_get "x-real-ip" (req_headers req) = Some EmptyString) ->
   clientIP req = "unknown").
Proof.
  assert (Hfallback :
    (headers_get "x-real-ip" (req_headers req) = None \/
     headers_get "x-real-ip" (req_headers req) = Some EmptyString) ->
    match headers_get "x-real-ip" (req_headers req) with
    | Some v => if truthy v then v else "unknown"
    | None => "unknown"
    end = "unknown").
  { intros [-> | ->]; reflexivity. }
  assert (Hreal : forall v,
    headers_get "x-real-ip" (req_headers req) = Some v -> v <> EmptyString ->
    match headers_get "x-real-ip" (req_headers req) with
    | Some v => if truthy v then v else "unknown"
    | None => "unknown"
    end = v).
  { intros v -> Hv. apply truthy_nonempty in Hv. by rewrite Hv. }
  assert (Hnonempty :
    match headers_get "x-real-ip" (req_headers req) with
    | Some v => if truthy v then v else "unknown"
    | None => "unknown"
    end <> EmptyString).
  { destruct (headers_get "x-real-ip" (req_headers req)) as [v|]; [|done].
    destruct (truthy v) eqn:E; [by apply truthy_nonempty | done]. }
  unfold clientIP.
  destruct (headers_get "x-forwarded-for" (req_headers req)) as [f|] eqn:Hf.
  - destruct (truthy (split_comma_first f)) eqn:Ht.
    + apply truthy_nonempty in Ht.
      split; [done|]. split; [by intros v [= <-] _|].
      split.
      * intros v [Habs|(f' & [= <-] & Hempty)] _ _; [discriminate Habs | done].
      * intros [Habs|(f' & [= <-] & Hempty)] _; [discriminate Habs | done].
    + assert (Hempty : split_comma_first f = EmptyString).
      { apply dec_stable. intros Hne. apply truthy_nonempty in Hne.
        congruence. }
      split; [exact Hnonempty|]. split; [by intros v [= <-] Hne|].
      split.
      * intros v _ Hr Hv. by apply Hreal.
      * intros _ Hr. by apply Hfallback.
  - split; [exact Hnonempty|]. split; [intros v Habs; discriminate Habs|].
    split.
    + intros v _ Hr Hv. by apply Hreal.
    + intros _ Hr. by apply Hfallback.
Qed.

Lemma clientIP_cases_witness :
  clientIP (mkRequest "GET" "/"
              (new_Headers [("X-Forwarded-For", ", 10.0.0.1");
                            ("X-Real-IP", "198.51.100.2")])) = "198.51.100.2" /\
  clientIP (mkRequest "GET" "/"
              (new_Headers [("X-Forwarded-For", ",203.0.113.7")])) = "unknown".
Proof.
  split.
  - apply (proj1 (proj2 (proj2 (clientIP_cases
             (mkRequest "GET" "/"
                (new_Headers [("X-Forwarded-For", ", 10.0.0.1");
                              ("X-Real-IP", "198.51.100.2")])))))
             "198.51.100.2").
    + right. exists ", 10.0.0.1". split; reflexivity.
    + reflexivity.
    + discriminate.
  - apply (proj2 (proj2 (proj2 (clientIP_cases
             (mkRequest "GET" "/"
                (new_Headers [("X-Forwarded-For", ",203.0.113.7")])))))).
    + right. exists ",203.0.113.7". split; reflexivity.
    + left. reflexivity.
Defined.

(** ** Rounding to seconds *)

Lemma Math_ceil_div_spec x d :
  0 < d ->
  d * (Math_ceil_div x d - 1) < x <= d * Math_ceil_div x d.
Proof.
  intros Hd. unfold Math_ceil_div.
  pose proof (Z.div_mod (- x) d ltac:(lia)) as Hdm.
  pose proof (Z.mod_pos_bound (- x) d Hd) as Hmod.
  nia.
Qed.

Lemma addRateLimitHeaders_other name (h : Headers) info :
  toLowerCase name <> "x-ratelimit-limit" ->
  toLowerCase name <> "x-ratelimit-remaining" ->
  toLowerCase name <> "x-ratelimit-reset" ->
  headers_get name (addRateLimitHeaders h info) = headers_get name h.
Proof.
  intros H1 H2 H3. unfold addRateLimitHeaders.
  rewrite headers_get_set_ne by (intros Heq; apply H3; by rewrite <- Heq).
  rewrite headers_get_set_ne by (intros Heq; apply H2; by rewrite <- Heq).
  by rewrite headers_get_set_ne by (intros Heq; apply H1; by rewrite <- Heq).
Qed.

(** [addRateLimitHeaders] changes the three rate-limit headers and nothing
    else; values that were there are replaced.  The reset header is the
    reset time in whole seconds, rounded up: never before the reset time
    and less than a second after it. *)
Theorem addRateLimitHeaders_effect (h : Headers) info :
  (forall name,
     toLowerCase name <> "x-ratelimit-limit" ->
     toLowerCase name <> "x-ratelimit-remaining" ->
     toLowerCase name <> "x-ratelimit-reset" ->
     headers_get name (addRateLimitHeaders h info) = headers_get name h) /\
  dom (addRateLimitHeaders h info) =
    {[ "x-ratelimit-limit"; "x-ratelimit-remaining"; "x-ratelimit-reset" ]}
    ∪ dom h /\
  exists seconds,
    headers_get "x-ratelimit-reset" (addRateLimitHeaders h info) =
      Some (toString seconds) /\
    1000 * (seconds - 1) < reset info <= 1000 * seconds.
Proof.
  split; [|split].
  - intros name H1 H2 H3. by apply addRateLimitHeaders_other.
  - unfold addRateLimitHeaders, headers_set.
    change (toLowerCase "X-RateLimit-Limit") with "x-ratelimit-limit".
    change (toLowerCase "X-RateLimit-Remaining") with "x-ratelimit-remaining".
    change (toLowerCase "X-RateLimit-Reset") with "x-ratelimit-reset".
    rewrite !dom_insert_L.
    apply set_eq. intros x. rewrite !elem_of_union, !elem_of_singleton. tauto.
  - exists (Math_ceil_div (reset info) 1000). split.
    + apply addRateLimitHeaders_get.
    + apply Math_ceil_div_spec. lia.
Qed.

Lemma addRateLimitHeaders_effect_witness :
  headers_get "Content-Type"
    (addRateLimitHeaders
       (new_Headers [("Content-Type", "text/plain"); ("X-RateLimit-Limit", "7")])
       (mkInfo true 49 31000)) =
  headers_get "Content-Type"
    (new_Headers [("Content-Type", "text/plain"); ("X-RateLimit-Limit", "7")]).
Proof.
  apply (proj1 (addRateLimitHeaders_effect _ (mkInfo true 49 31000)) "Content-Type");
    vm_compute; discriminate.
Defined.

(** ** The handler, route by route *)

(** Side conditions on literal header names. *)
Ltac names_differ := vm_compute; discriminate.

Lemma new_Response_keeps_headers txt st (h : Headers) v :
  headers_get "Content-Type" h = Some v ->
  new_Response txt st h = mkResponse st h (Utf8.encode txt).
Proof. intros H. unfold new_Response. by rewrite H. Qed.

Lemma rejected_table_unchanged now ip (st : Store) :
  allowed (checkRateLimit now ip st).1 = false ->
  (checkRateLimit now ip st).2 = st.
Proof. check_cases now ip st; cbn [fst snd allowed]; by intros. Qed.

Section HandlerFurther.

Variable gzip : list byte -> list byte.

Lemma route_admitted w req d :
  allowed d = true ->
  route gzip w req d =
    Return
      (if bool_decide (pathname req = "/widget-config") then
         widget_config gzip (acceptsGzip req) d
       else if bool_decide (pathname req = "/") ||
               bool_decide (pathname req = "/index.html") then
         index_html w d
       else if is_asset_path (pathname req) then
         static_asset gzip w req (acceptsGzip req) d
       else not_found d).
Proof.
  intros Hd. unfold route. rewrite Hd. cbn [negb].
  repeat case_match; done.
Qed.

Lemma handler_admitted w req (st : Store) :
  readDir_next w = Return tt ->
  allowed (decision w req st) = true ->
  (handler gzip w req st).1 = route gzip w req (decision w req st).
Proof.
  intros Hprobe Hd. rewrite (handler_answer gzip w req st Hprobe). cbn [fst].
  unfold answer. by rewrite (route_admitted w req _ Hd).
Qed.

(** A response has status 429 exactly when the limiter rejected the
    request (a 429 that [serveDir] might answer is not passed on), and
    every status is 429, 404, 500 or in the 2xx range. *)
Theorem status_429_iff_rejected w req (st : Store) resp :
  (handler gzip w req st).1 = Return resp ->
  (status resp = 429 <-> allowed (decision w req st) = false) /\
  (status resp = 429 \/ status resp = 404 \/ status resp = 500 \/
   200 <= status resp <= 299).
Proof.
  intros Hret. apply handler_returns in Hret.
  set (d := decision w req st) in *. clearbody d.
  destruct (allowed d) eqn:Hd.
  - rewrite (route_admitted w req d Hd) in Hret. injection Hret as Hresp.
    assert (Hcases : status resp = 404 \/ status resp = 500 \/
                     200 <= status resp <= 299).
    { subst resp. repeat case_match.
      - right. right. rewrite (proj1 (widget_config_carries gzip _ d)). lia.
      - destruct (index_html_cases w d) as [[-> _]|[-> _]]; lia.
      - destruct (static_asset_cases gzip w req (acceptsGzip req) d)
          as [[? _]|[[-> _]|[-> _]]]; lia.
      - left. apply not_found_carries. }
    split.
    + split; [intros H429; exfalso; lia | discriminate].
    + destruct Hcases as [?|[?|?]]; auto.
  - unfold route in Hret. rewrite Hd in Hret. cbn [negb] in Hret.
    inversion Hret; subst resp. split; [done | by left].
Qed.

(** Headers of a response built from a string whose header list names a
    content type, after the rate-limit headers were added. *)
Lemma built_response_headers name txt st (h : Headers) d v :
  headers_get "Content-Type" h = Some v ->
  toLowerCase name <> "x-ratelimit-limit" ->
  toLowerCase name <> "x-ratelimit-remaining" ->
  toLowerCase name <> "x-ratelimit-reset" ->
  headers_get name (headers (new_Response txt st (addRateLimitHeaders h d))) =
    headers_get name h.
Proof.
  intros Hct H1 H2 H3.
  rewrite (new_Response_keeps_headers txt st _ v).
  - cbn [headers]. by apply addRateLimitHeaders_other.
  - rewrite addRateLimitHeaders_other by names_differ. exact Hct.
Qed.

(** A rejected request: status 429, the plain-text body "Rate limit
    exceeded", and the table as it was.  [Retry-After] is the time from the
    second clock reading to the reset, in whole seconds rounded up; it is
    between 0 and 30 when that reading falls inside the window the entry
    belongs to. *)
Theorem rejected_response w req (st : Store) :
  readDir_next w = Return tt ->
  allowed (decision w req st) = false ->
  exists resp n,
    handler gzip w req st = (Return resp, st) /\
    status resp = 429 /\
    body resp = literal_bytes "Rate limit exceeded" /\
    headers_get "Content-Type" (headers resp) = Some "text/plain" /\
    headers_get "Retry-After" (headers resp) = Some (toString n) /\
    1000 * (n - 1) < reset (decision w req st) - Date_now_again w <= 1000 * n /\
    (reset (decision w req st) - RATE_WINDOW <= Date_now_again w
       <= reset (decision w req st) ->
     0 <= n <= 30).
Proof.
  intros Hprobe Hd.
  exists (rate_limit_exceeded w (decision w req st)).
  exists (Math_ceil_div (reset (decision w req st) - Date_now_again w) 1000).
  pose proof (Math_ceil_div_spec
                (reset (decision w req st) - Date_now_again w) 1000 ltac:(lia))
    as Hceil.
  split; [|split; [|split; [|split; [|split; [|split]]]]].
  - rewrite (handler_answer gzip w req st Hprobe).
    unfold answer, route. rewrite Hd. cbn [negb].
    f_equal. by apply rejected_table_unchanged.
  - done.
  - done.
  - unfold rate_limit_exceeded.
    by rewrite (built_response_headers "Content-Type" _ _ _ _ "text/plain")
      by (try names_differ; reflexivity).
  - unfold rate_limit_exceeded.
    by rewrite (built_response_headers "Retry-After" _ _ _ _ "text/plain")
      by (try names_differ; reflexivity).
  - exact Hceil.
  - unfold RATE_WINDOW. intros Hin. lia.
Qed.

(** The index document is served as read, never compressed, whatever the
    client accepts: status 200, the UTF-8 encoding of the file's text, the
    HTML content type, one hour of caching and no content encoding.  When
    the file cannot be read the answer is a bare 500 "Server Error" with
    no cache directive. *)
Theorem index_is_served_uncompressed w req (st : Store) :
  readDir_next w = Return tt ->
  allowed (decision w req st) = true ->
  is_index_path (pathname req) ->
  (forall html,
     readTextFile w "widget-react-app/dist/index.html" = Return html ->
     exists resp,
       (handler gzip w req st).1 = Return resp /\
       status resp = 200 /\
       body resp = Utf8.encode html /\
       headers_get "Content-Type" (headers resp) =
         Some "text/html; charset=utf-8" /\
       headers_get "Cache-Control" (headers resp) =
         Some "public, max-age=3600" /\
       headers_get "Content-Encoding" (headers resp) = None) /\
  (forall err,
     readTextFile w "widget-react-app/dist/index.html" = Throw err ->
     exists resp,
       (handler gzip w req st).1 = Return resp /\
       status resp = 500 /\
       body resp = literal_bytes "Server Error" /\
       headers_get "Cache-Control" (headers resp) = None).
Proof.
  intros Hprobe Hd Hpath.
  assert (Hroute : (handler gzip w req st).1 =
                   Return (index_html w (decision w req st))).
  { rewrite (handler_admitted w req st Hprobe Hd).
    rewrite (route_admitted w req _ Hd).
    destruct Hpath as [-> | ->]; reflexivity. }
  split.
  - intros html Hread. exists (index_html w (decision w req st)).
    split; [exact Hroute|]. unfold index_html. rewrite Hread.
    split; [reflexivity|]. split; [reflexivity|].
    split; [|split].
    + by rewrite (built_response_headers "Content-Type" _ _ _ _
                    "text/html; charset=utf-8")
        by (try names_differ; reflexivity).
    + by rewrite (built_response_headers "Cache-Control" _ _ _ _
                    "text/html; charset=utf-8")
        by (try names_differ; reflexivity).
    + by rewrite (built_response_headers "Content-Encoding" _ _ _ _
                    "text/html; charset=utf-8")
        by (try names_differ; reflexivity).
  - intros err Hread. exists (index_html w (decision w req st)).
    split; [exact Hroute|]. unfold index_html. rewrite Hread.
    repeat split.
Qed.

(** A path that is neither the configuration, nor the index, nor an asset
    path gets 404 "Not Found" as plain text that must not be stored. *)
Theorem unmatched_path_is_404 w req (st : Store) :
  readDir_next w = Return tt ->
  allowed (decision w req st) = true ->
  pathname req <> "/widget-config" ->
  ~ is_index_path (pathname req) ->
  is_asset_path (pathname req) = false ->
  exists resp,
    (handler gzip w req st).1 = Return resp /\
    status resp = 404 /\
    body resp = literal_bytes "Not Found" /\
    headers_get "Content-Type" (headers resp) = Some "text/plain" /\
    headers_get "Cache-Control" (headers resp) = Some "no-store".
Proof.
  intros Hprobe Hd Hcfg Hidx Hasset. unfold is_index_path in Hidx.
  exists (not_found (decision w req st)).
  split.
  - rewrite (handler_admitted w req st Hprobe Hd).
    rewrite (route_admitted w req _ Hd).
    rewrite bool_decide_eq_false_2 by done.
    rewrite !bool_decide_eq_false_2 by tauto.
    cbn [orb]. by rewrite Hasset.
  - split; [reflexivity|]. split; [reflexivity|]. unfold not_found. split.
    + by rewrite (built_response_headers "Content-Type" _ _ _ _ "text/plain")
        by (try names_differ; reflexivity).
    + by rewrite (built_response_headers "Cache-Control" _ _ _ _ "text/plain")
        by (try names_differ; reflexivity).
Qed.

Lemma compressResponse_sets (response : Response) :
  body (compressResponse gzip response) =
    gzip (Utf8.encode (Utf8.decode (body response))) /\
  headers_get "Content-Encoding" (headers (compressResponse gzip response)) =
    Some "gzip" /\
  headers_get "Content-Length" (headers (compressResponse gzip response)) =
    Some (toString (Z.of_nat (length (body (compressResponse gzip response))))).
Proof.
  unfold compressResponse, new_Response_bytes, text. cbn [body headers].
  split; [done|]. split.
  - rewrite headers_get_set_ne by names_differ. apply headers_get_set_eq.
  - apply headers_get_set_eq.
Qed.

(** A static asset.  What [serveDir] answers is passed on only when its
    status is in the 2xx range: then the status is kept, [Cache-Control]
    is replaced by one year for paths under [/assets/] and one hour for
    the others, and the body is the file's, or, for a client that accepts
    gzip, the output of [gzip] with the matching encoding and length
    headers.  Any other answer of [serveDir] (a 304 as much as a 404)
    becomes a bare 404 "Not Found", and a failure of [serveDir] a bare 500
    "Server Error". *)
Theorem asset_policy w req (st : Store) :
  readDir_next w = Return tt ->
  allowed (decision w req st) = true ->
  pathname req <> "/widget-config" ->
  ~ is_index_path (pathname req) ->
  is_asset_path (pathname req) = true ->
  exists resp,
    (handler gzip w req st).1 = Return resp /\
    (forall response, serveDir w req = Return response -> ok response = true ->
       status resp = status response /\
       headers_get "Cache-Control" (headers resp) =
         Some (if startsWith (pathname req) "/assets/"
               then "public, max-age=31536000" else "public, max-age=3600") /\
       (acceptsGzip req = false ->
        body resp = body response /\
        headers_get "Content-Encoding" (headers resp) =
          headers_get "Content-Encoding" (headers response)) /\
       (acceptsGzip req = true ->
        body resp = gzip (Utf8.encode (Utf8.decode (body response))) /\
        headers_get "Content-Encoding" (headers resp) = Some "gzip" /\
        headers_get "Content-Length" (headers resp) =
          Some (toString (Z.of_nat (length (body resp)))))) /\
    (forall response, serveDir w req = Return response -> ok response = false ->
       status resp = 404 /\
       body resp = literal_bytes "Not Found" /\
       headers_get "Cache-Control" (headers resp) = None) /\
    (forall err, serveDir w req = Throw err ->
       status resp = 500 /\
       body resp = literal_bytes "Server Error" /\
       headers_get "Cache-Control" (headers resp) = None).
Proof.
  intros Hprobe Hd Hcfg Hidx Hasset. unfold is_index_path in Hidx.
  exists (static_asset gzip w req (acceptsGzip req) (decision w req st)).
  split.
  { rewrite (handler_admitted w req st Hprobe Hd).
    rewrite (route_admitted w req _ Hd).
    rewrite bool_decide_eq_false_2 by done.
    rewrite !bool_decide_eq_false_2 by tauto.
    cbn [orb]. by rewrite Hasset. }
  set (d := decision w req st). clearbody d.
  unfold static_asset.
  split; [|split].
  - intros response Hserve Hok. rewrite Hserve, Hok. cbn [negb].
    set (sent := mkResponse (status response)
                   (addRateLimitHeaders
                      (headers_set "Cache-Control"
                         (if startsWith (pathname req) "/assets/"
                          then max_age STATIC_CACHE_MAX_AGE
                          else max_age DYNAMIC_CACHE_MAX_AGE)
                         (headers response)) d)
                   (body response)).
    assert (Hcc : headers_get "Cache-Control" (headers sent) =
                  Some (if startsWith (pathname req) "/assets/"
                        then "public, max-age=31536000"
                        else "public, max-age=3600")).
    { subst sent. cbn [headers].
      rewrite addRateLimitHeaders_other by names_differ.
      rewrite headers_get_set_eq. by destruct (startsWith _ _). }
    destruct (acceptsGzip req).
    + split; [done|]. split.
      * by rewrite compressResponse_headers by names_differ.
      * split; [discriminate|]. intros _. apply (compressResponse_sets sent).
    + split; [done|]. split; [exact Hcc|].
      split; [|discriminate]. intros _. split; [done|].
      subst sent. cbn [headers].
      rewrite addRateLimitHeaders_other by names_differ.
      by rewrite headers_get_set_ne by names_differ.
  - intros response Hserve Hok. rewrite Hserve, Hok. cbn [negb].
    repeat split.
  - intros err Hserve. rewrite Hserve. repeat split.
Qed.

(** The configuration document is served as JSON that may be cached for
    an hour and read from any origin; these headers are also on the
    compressed response, which in addition names its encoding and the
    length of the compressed body.  A client that does not accept gzip
    gets neither of the two. *)
Theorem widget_config_headers w req (st : Store) :
  readDir_next w = Return tt ->
  allowed (decision w req st) = true ->
  pathname req = "/widget-config" ->
  exists resp,
    (handler gzip w req st).1 = Return resp /\
    headers_get "Content-Type" (headers resp) = Some "application/json" /\
    headers_get "Cache-Control" (headers resp) = Some "public, max-age=3600" /\
    headers_get "X-Content-Type-Options" (headers resp) = Some "nosniff" /\
    headers_get "Access-Control-Allow-Origin" (headers resp) = Some "*" /\
    headers_get "Access-Control-Allow-Methods" (headers resp) =
      Some "GET, OPTIONS" /\
    headers_get "Access-Control-Allow-Headers" (headers resp) =
      Some "Content-Type" /\
    (acceptsGzip req = true ->
     headers_get "Content-Encoding" (headers resp) = Some "gzip" /\
     headers_get "Content-Length" (headers resp) =
       Some (toString (Z.of_nat (length (body resp))))) /\
    (acceptsGzip req = false ->
     headers_get "Content-Encoding" (headers resp) = None /\
     headers_get "Content-Length" (headers resp) = None).
Proof.
  intros Hprobe Hd Hpath.
  exists (widget_config gzip (acceptsGzip req) (decision w req st)).
  split; [by apply handler_widget_config|].
  set (d := decision w req st). clearbody d.
  unfold widget_config.
  assert (Hplain : forall name,
    toLowerCase name <> "x-ratelimit-limit" ->
    toLowerCase name <> "x-ratelimit-remaining" ->
    toLowerCase name <> "x-ratelimit-reset" ->
    headers_get name
      (headers
         (new_Response (Utf8.of_literal (JSON_stringify WIDGET_CONFIG)) 200
            (addRateLimitHeaders
               (new_Headers
                  [("Content-Type", "application/json");
                   ("Cache-Control", max_age DYNAMIC_CACHE_MAX_AGE);
                   ("X-Content-Type-Options", "nosniff");
                   ("Access-Control-Allow-Origin", "*");
                   ("Access-Control-Allow-Methods", "GET, OPTIONS");
                   ("Access-Control-Allow-Headers", "Content-Type")]) d))) =
    headers_get name
      (new_Headers
         [("Content-Type", "application/json");
          ("Cache-Control", max_age DYNAMIC_CACHE_MAX_AGE);
          ("X-Content-Type-Options", "nosniff");
          ("Access-Control-Allow-Origin", "*");
          ("Access-Control-Allow-Methods", "GET, OPTIONS");
          ("Access-Control-Allow-Headers", "Content-Type")])).
  { intros name H1 H2 H3.
    by apply (built_response_headers name _ _ _ _ "application/json"). }
  destruct (acceptsGzip req).
  - rewrite !compressResponse_headers by names_differ.
    rewrite !Hplain by names_differ.
    repeat (split; [reflexivity|]).
    split; [|discriminate]. intros _.
    split; apply compressResponse_sets.
  - rewrite !Hplain by names_differ.
    repeat (split; [reflexivity|]).
    split; [discriminate|]. intros _. split; reflexivity.
Qed.

(** What a request does to the table.  A request whose directory probe
    returns is counted against its identity before the path is looked at:
    the table afterwards is the one the limiter leaves, whatever the route
    and its outcome.  A request whose probe throws is not counted.  No
    request changes the entry of another identity. *)
Theorem handler_table_effect w req (st : Store) :
  (readDir_next w = Return tt ->
   (handler gzip w req st).2 =
     (checkRateLimit (Date_now w) (clientIP req) st).2) /\
  (forall err, readDir_next w = Throw err ->
     handler gzip w req st = (Throw err, st)) /\
  (forall ip, ip <> clientIP req -> (handler gzip w req st).2 !! ip = st !! ip).
Proof.
  split; [|split].
  - intros Hprobe. by rewrite (handler_answer gzip w req st Hprobe).
  - intros err Hprobe. unfold handler. by rewrite Hprobe.
  - intros ip Hne. destruct (readDir_next w) as [[]|err] eqn:Hprobe.
    + rewrite (handler_answer gzip w req st Hprobe). cbn [snd].
      by apply checkRateLimit_other.
    + unfold handler. by rewrite Hprobe.
Qed.

Lemma handler_wf w req (st : Store) :
  store_wf st -> store_wf (handler gzip w req st).2.
Proof.
  intros Hwf. destruct (readDir_next w) as [[]|err] eqn:Hprobe.
  - rewrite (handler_answer gzip w req st Hprobe). cbn [snd].
    by apply checkRateLimit_wf.
  - unfold handler. by rewrite Hprobe.
Qed.

(** Serving any sequence of requests, of any identities and paths, in any
    worlds, keeps every stored counter between 1 and the limit; the
    server's initial, empty table is such a table. *)
Theorem serve_keeps_counters_in_range (reqs : list (World * Request)) :
  (forall st : Store, store_wf st -> store_wf (serve gzip reqs st).2) /\
  store_wf (serve gzip reqs ∅).2.
Proof.
  assert (Hgen : forall st : Store,
             store_wf st -> store_wf (serve gzip reqs st).2).
  { induction reqs as [|[w req] reqs IH]; intros st Hwf; [done|].
    cbn [serve].
    pose proof (handler_wf w req st Hwf) as H1.
    destruct (handler gzip w req st) as [r st1]. cbn [snd] in H1.
    specialize (IH st1 H1).
    by destruct (serve gzip reqs st1) as [rs st2]. }
  split; [exact Hgen | apply Hgen, store_wf_empty].
Qed.

End HandlerFurther.

(** ** The further properties at concrete inputs *)

Lemma status_429_iff_rejected_witness :
  (status (rate_limit_exceeded (empty_disk 1000) (mkInfo false 0 30000)) = 429 <->
   allowed (decision (empty_disk 1000) (get "/")
              {[ "203.0.113.7" := mkWindow 50 0 ]}) = false) /\
  (status (rate_limit_exceeded (empty_disk 1000) (mkInfo false 0 30000)) = 429 \/
   status (rate_limit_exceeded (empty_disk 1000) (mkInfo false 0 30000)) = 404 \/
   status (rate_limit_exceeded (empty_disk 1000) (mkInfo false 0 30000)) = 500 \/
   200 <= status (rate_limit_exceeded (empty_disk 1000) (mkInfo false 0 30000))
       <= 299).
Proof.
  apply (status_429_iff_rejected framing_gzip (empty_disk 1000) (get "/")
           {[ "203.0.113.7" := mkWindow 50 0 ]}).
  reflexivity.
Defined.

Lemma rejected_response_witness :
  exists resp n,
    handler framing_gzip late_world (get "/") full_table =
      (Return resp, full_table) /\
    status resp = 429 /\
    body resp = literal_bytes "Rate limit exceeded" /\
    headers_get "Content-Type" (headers resp) = Some "text/plain" /\
    headers_get "Retry-After" (headers resp) = Some (toString n) /\
    1000 * (n - 1) <
      reset (decision late_world (get "/") full_table) - Date_now_again late_world
      <= 1000 * n /\
    (reset (decision late_world (get "/") full_table) - RATE_WINDOW
       <= Date_now_again late_world
       <= reset (decision late_world (get "/") full_table) ->
     0 <= n <= 30).
Proof.
  apply (rejected_response framing_gzip late_world (get "/") full_table);
    reflexivity.
Defined.

Lemma index_is_served_uncompressed_witness :
  (forall html,
     readTextFile indexed_world "widget-react-app/dist/index.html" = Return html ->
     exists resp,
       (handler framing_gzip indexed_world (get_gzip "/index.html") ∅).1 =
         Return resp /\
       status resp = 200 /\
       body resp = Utf8.encode html /\
       headers_get "Content-Type" (headers resp) =
         Some "text/html; charset=utf-8" /\
       headers_get "Cache-Control" (headers resp) =
         Some "public, max-age=3600" /\
       headers_get "Content-Encoding" (headers resp) = None) /\
  (forall err,
     readTextFile indexed_world "widget-react-app/dist/index.html" = Throw err ->
     exists resp,
       (handler framing_gzip indexed_world (get_gzip "/index.html") ∅).1 =
         Return resp /\
       status resp = 500 /\
       body resp = literal_bytes "Server Error" /\
       headers_get "Cache-Control" (headers resp) = None).
Proof.
  apply (index_is_served_uncompressed framing_gzip indexed_world
           (get_gzip "/index.html") ∅).
  - reflexivity.
  - reflexivity.
  - right. reflexivity.
Defined.

Lemma unmatched_path_is_404_witness :
  exists resp,
    (handler framing_gzip (empty_disk 1000) (get "/widget-config/") ∅).1 =
      Return resp /\
    status resp = 404 /\
    body resp = literal_bytes "Not Found" /\
    headers_get "Content-Type" (headers resp) = Some "text/plain" /\
    headers_get "Cache-Control" (headers resp) = Some "no-store".
Proof.
  apply (unmatched_path_is_404 framing_gzip (empty_disk 1000)
           (get "/widget-config/") ∅).
  - reflexivity.
  - reflexivity.
  - discriminate.
  - intros [H|H]; discriminate H.
  - reflexivity.
Defined.

Lemma asset_policy_witness :
  exists resp,
    (handler framing_gzip png_world png_request ∅).1 = Return resp /\
    (forall response,
       serveDir png_world png_request = Return response -> ok response = true ->
       status resp = status response /\
       headers_get "Cache-Control" (headers resp) =
         Some (if startsWith (pathname png_request) "/assets/"
               then "public, max-age=31536000" else "public, max-age=3600") /\
       (acceptsGzip png_request = false ->
        body resp = body response /\
        headers_get "Content-Encoding" (headers resp) =
          headers_get "Content-Encoding" (headers response)) /\
       (acceptsGzip png_request = true ->
        body resp = framing_gzip (Utf8.encode (Utf8.decode (body response))) /\
        headers_get "Content-Encoding" (headers resp) = Some "gzip" /\
        headers_get "Content-Length" (headers resp) =
          Some (toString (Z.of_nat (length (body resp)))))) /\
    (forall response,
       serveDir png_world png_request = Return response -> ok response = false ->
       status resp = 404 /\
       body resp = literal_bytes "Not Found" /\
       headers_get "Cache-Control" (headers resp) = None) /\
    (forall err, serveDir png_world png_request = Throw err ->
       status resp = 500 /\
       body resp = literal_bytes "Server Error" /\
       headers_get "Cache-Control" (headers resp) = None).
Proof.
  apply (asset_policy framing_gzip png_world png_request ∅).
  - reflexivity.
  - reflexivity.
  - discriminate.
  - intros [H|H]; discriminate H.
  - reflexivity.
Defined.

Lemma widget_config_headers_witness :
  exists resp,
    (handler framing_gzip (empty_disk 1000) (get_gzip "/widget-config") ∅).1 =
      Return resp /\
    headers_get "Content-Type" (headers resp) = Some "application/json" /\
    headers_get "Cache-Control" (headers resp) = Some "public, max-age=3600" /\
    headers_get "X-Content-Type-Options" (headers resp) = Some "nosniff" /\
    headers_get "Access-Control-Allow-Origin" (headers resp) = Some "*" /\
    headers_get "Access-Control-Allow-Methods" (headers resp) =
      Some "GET, OPTIONS" /\
    headers_get "Access-Control-Allow-Headers" (headers resp) =
      Some "Content-Type" /\
    (acceptsGzip (get_gzip "/widget-config") = true ->
     headers_get "Content-Encoding" (headers resp) = Some "gzip" /\
     headers_get "Content-Length" (headers resp) =
       Some (toString (Z.of_nat (length (body resp))))) /\
    (acceptsGzip (get_gzip "/widget-config") = false ->
     headers_get "Content-Encoding" (headers resp) = None /\
     headers_get "Content-Length" (headers resp) = None).
Proof.
  apply (widget_config_headers framing_gzip (empty_disk 1000)
           (get_gzip "/widget-config") ∅);
    reflexivity.
Defined.

Lemma handler_table_effect_witness :
  (handler framing_gzip (empty_disk 1000) (get "/no/such/page") full_table).2 =
    (checkRateLimit (Date_now (empty_disk 1000))
       (clientIP (get "/no/such/page")) full_table).2 /\
  (handler framing_gzip (empty_disk 1000) (get "/no/such/page") full_table).2
    !! "198.51.100.2" = full_table !! "198.51.100.2".
Proof.
  split.
  - apply (proj1 (handler_table_effect framing_gzip (empty_disk 1000)
                    (get "/no/such/page") full_table)).
    reflexivity.
  - apply (proj2 (proj2 (handler_table_effect framing_gzip (empty_disk 1000)
                           (get "/no/such/page") full_table))).
    discriminate.
Defined.

Lemma serve_keeps_counters_in_range_witness :
  store_wf
    (serve framing_gzip
       [(empty_disk 40000, get "/"); (png_world, png_request);
        (empty_disk 40001, get "/widget-config")]
       full_table).2.
Proof.
  apply (proj1 (serve_keeps_counters_in_range framing_gzip _) full_table).
  intros ip e H. unfold full_table in H.
  apply lookup_singleton_Some in H as [_ <-].
  simpl. unfold RATE_LIMIT. lia.
Defined.

Lemma compressResponse_on_ascii_witness :
  let compressed := compressResponse framing_gzip css_response in
  framing_gunzip (body compressed) = body css_response /\
  headers_get "Content-Encoding" (headers compressed) = Some "gzip" /\
  headers_get "Content-Length" (headers compressed) =
    Some (toString (Z.of_nat (length (body compressed)))) /\
  status compressed = status css_response /\
  (forall name,
     toLowerCase "Content-Encoding" <> toLowerCase name ->
     toLowerCase "Content-Length" <> toLowerCase name ->
     headers_get name (headers compressed) =
       headers_get name (headers css_response)).
Proof.
  apply (compressResponse_on_ascii framing_gzip framing_gunzip css_response).
  - intros bytes. reflexivity.
  - unfold ascii_bytes.
    repeat (apply Forall_cons; split; [reflexivity|]). apply Forall_nil. exact I.
Defined.

(** ** The chain look-ups, value by value *)

(** The two sets are disjoint, so the order of the two tests does not
    matter: a chain of the EVM set gets the deBridge referral code and the
    EVM recipient, the chain of the other set gets the Jupiter key and the
    Solana recipient, and the two look-ups throw on exactly the same
    ids. *)
Theorem chain_lookups_by_family (n : Z) :
  (getReferralKey n = Return DEBRIDGE_REFERRAL_CODE <->
   In n SUPPORTED_CHAINS.EVM) /\
  (getAffiliateFeeRecipient n = Return EVM_RECIPIENT <->
   In n SUPPORTED_CHAINS.EVM) /\
  (getReferralKey n = Return JUPITER_REFERRAL_PUBKEY <->
   In n SUPPORTED_CHAINS.SOLANA) /\
  (getAffiliateFeeRecipient n = Return SOLANA_PUBLIC_KEY <->
   In n SUPPORTED_CHAINS.SOLANA) /\
  ((exists e, getReferralKey n = Throw e) <->
   (exists e, getAffiliateFeeRecipient n = Throw e)).
Proof.
  assert (Hdisjoint : In n SUPPORTED_CHAINS.SOLANA ->
                      In n SUPPORTED_CHAINS.EVM -> False).
  { simpl. lia. }
  unfold getReferralKey, getAffiliateFeeRecipient.
  destruct (includes SUPPORTED_CHAINS.SOLANA n) eqn:Hs;
    [apply includes_In in Hs | apply includes_not_In in Hs];
    (destruct (includes SUPPORTED_CHAINS.EVM n) eqn:He;
     [apply includes_In in He | apply includes_not_In in He]);
    repeat split;
    try (intros [e Habs]; discriminate Habs);
    try (intros Habs; discriminate Habs);
    intros; try reflexivity; try assumption; exfalso; tauto.
Qed.

(** ** Text bodies: decoding what was encoded *)

Ltac nlia := zify; Z.to_euclidean_division_equations; lia.

(** Rewrite the comparisons of the goal whose outcome arithmetic decides. *)
Ltac decide_tests :=
  repeat match goal with
    | |- context [N.leb ?a ?b] =>
        first [ rewrite (proj2 (N.leb_le a b)) by nlia
              | rewrite (proj2 (N.leb_gt a b)) by nlia ]
    | |- context [N.ltb ?a ?b] =>
        first [ rewrite (proj2 (N.ltb_lt a b)) by nlia
              | rewrite (proj2 (N.ltb_ge a b)) by nlia ]
    | |- context [N.eqb ?a ?b] =>
        first [ rewrite (proj2 (N.eqb_eq a b)) by nlia
              | rewrite (proj2 (N.eqb_neq a b)) by nlia ]
    end;
  cbn [andb orb negb].

Section Bits.

Local Open Scope N_scope.

Lemma lor_disjoint_add a b : N.land a b = 0 -> N.lor a b = a + b.
Proof.
  intros H. rewrite <- N.lxor_lor by done. symmetry. by apply N.add_nocarry_lxor.
Qed.

Lemma land_multiple_low c r k : r < 2 ^ k -> N.land (c * 2 ^ k) r = 0.
Proof.
  intros Hr.
  replace r with (N.land (N.ones k) r)
    by (rewrite N.land_comm, N.land_ones; by apply N.mod_small).
  rewrite N.land_assoc, N.land_ones, N.Div0.mod_mul. apply N.land_0_l.
Qed.

Lemma lor_tail r : r < 64 -> N.lor 0x80 r = 128 + r.
Proof.
  intros Hr. apply lor_disjoint_add.
  change 0x80 with (2 * 2 ^ 6). by apply land_multiple_low.
Qed.

Lemma lor_lead2 q : q < 32 -> N.lor 0xC0 q = 192 + q.
Proof.
  intros Hq. apply lor_disjoint_add.
  change 0xC0 with (6 * 2 ^ 5). by apply land_multiple_low.
Qed.

Lemma lor_lead3 q : q < 16 -> N.lor 0xE0 q = 224 + q.
Proof.
  intros Hq. apply lor_disjoint_add.
  change 0xE0 with (14 * 2 ^ 4). by apply land_multiple_low.
Qed.

Lemma lor_lead4 q : q < 8 -> N.lor 0xF0 q = 240 + q.
Proof.
  intros Hq. apply lor_disjoint_add.
  change 0xF0 with (30 * 2 ^ 3). by apply land_multiple_low.
Qed.

Lemma lor_join c r : r < 64 -> N.lor (N.shiftl c 6) r = c * 64 + r.
Proof.
  intros Hr. rewrite N.shiftl_mul_pow2. change (2 ^ 6) with 64.
  apply lor_disjoint_add. change 64 with (2 ^ 6). by apply land_multiple_low.
Qed.

Lemma land_low k b : N.land b (N.ones k) = b mod 2 ^ k.
Proof. apply N.land_ones. Qed.

Lemma to_N_byte_of_N n : n < 256 -> Byte.to_N (Utf8.byte_of_N n) = n.
Proof.
  intros Hn. unfold Utf8.byte_of_N.
  destruct (Byte.of_N n) as [b|] eqn:E.
  - by apply Byte.to_of_N.
  - apply Byte.of_N_None_iff in E. lia.
Qed.

(** The bytes of one code point, as numbers. *)
Lemma encode_code_point_bytes cp :
  cp < 0x110000 ->
  map Byte.to_N (Utf8.encode_code_point cp) =
    if cp <? 0x80 then [cp]
    else if cp <? 0x800 then [192 + cp / 64; 128 + cp mod 64]
    else if cp <? 0x10000 then
      [224 + cp / 4096; 128 + (cp / 64) mod 64; 128 + cp mod 64]
    else
      [240 + cp / 262144; 128 + (cp / 4096) mod 64;
       128 + (cp / 64) mod 64; 128 + cp mod 64].
Proof.
  intros Hcp. unfold Utf8.encode_code_point.
  rewrite map_map.
  change 0x3F with (N.ones 6).
  rewrite !land_low, !N.shiftr_div_pow2.
  change (2 ^ 6) with 64. change (2 ^ 12) with 4096. change (2 ^ 18) with 262144.
  destruct (N.ltb_spec cp 0x80) as [H1|H1].
  { cbn [map]. rewrite to_N_byte_of_N by lia. done. }
  destruct (N.ltb_spec cp 0x800) as [H2|H2].
  { cbn [map]. rewrite lor_lead2 by nlia. rewrite lor_tail by nlia.
    rewrite !to_N_byte_of_N by nlia. done. }
  destruct (N.ltb_spec cp 0x10000) as [H3|H3].
  { cbn [map]. rewrite lor_lead3 by nlia. rewrite !lor_tail by nlia.
    rewrite !to_N_byte_of_N by nlia. done. }
  cbn [map]. rewrite lor_lead4 by nlia. rewrite !lor_tail by nlia.
  rewrite !to_N_byte_of_N by nlia. done.
Qed.

(** One step of the decoder on a first byte. *)
Lemma decode_from_initial b rest :
  Utf8.decode_from Utf8.initial (b :: rest) =
    (Utf8.lead b).1 ++ Utf8.decode_from (Utf8.lead b).2 rest.
Proof. cbn. by destruct (Utf8.lead b). Qed.

(** One step of the decoder on a continuation byte in range. *)
Lemma decode_from_continuation d r rest :
  Utf8.bytes_needed d <> 0 ->
  r < 64 ->
  Utf8.lower_boundary d <= 128 + r ->
  128 + r <= Utf8.upper_boundary d ->
  Utf8.decode_from d ((128 + r) :: rest) =
    if Utf8.bytes_seen d + 1 =? Utf8.bytes_needed d
    then (Utf8.code_point d * 64 + r) :: Utf8.decode_from Utf8.initial rest
    else Utf8.decode_from
           (Utf8.mkDecoder (Utf8.code_point d * 64 + r) (Utf8.bytes_seen d + 1)
              (Utf8.bytes_needed d) 0x80 0xBF) rest.
Proof.
  intros Hneeded Hr Hlo Hhi. cbn [Utf8.decode_from].
  rewrite (proj2 (N.eqb_neq _ _) Hneeded).
  rewrite (proj2 (N.leb_le _ _) Hlo), (proj2 (N.leb_le _ _) Hhi). cbn [andb].
  change 0x3F with (N.ones 6). rewrite land_low. change (2 ^ 6) with 64.
  replace ((128 + r) mod 64) with r by nlia.
  by rewrite lor_join.
Qed.

Lemma decode_continue cp0 seen needed lo hi r rest :
  needed <> 0 -> r < 64 -> lo <= 128 + r -> 128 + r <= hi ->
  seen + 1 <> needed ->
  Utf8.decode_from (Utf8.mkDecoder cp0 seen needed lo hi) ((128 + r) :: rest) =
    Utf8.decode_from
      (Utf8.mkDecoder (cp0 * 64 + r) (seen + 1) needed 0x80 0xBF) rest.
Proof.
  intros Hneeded Hr Hlo Hhi Hmore.
  rewrite decode_from_continuation by done.
  cbn [Utf8.bytes_seen Utf8.bytes_needed Utf8.code_point].
  by rewrite (proj2 (N.eqb_neq _ _) Hmore).
Qed.

Lemma decode_finish cp0 seen needed lo hi r rest :
  needed <> 0 -> r < 64 -> lo <= 128 + r -> 128 + r <= hi ->
  seen + 1 = needed ->
  Utf8.decode_from (Utf8.mkDecoder cp0 seen needed lo hi) ((128 + r) :: rest) =
    (cp0 * 64 + r) :: Utf8.decode_from Utf8.initial rest.
Proof.
  intros Hneeded Hr Hlo Hhi Hlast.
  rewrite decode_from_continuation by done.
  cbn [Utf8.bytes_seen Utf8.bytes_needed Utf8.code_point].
  by rewrite (proj2 (N.eqb_eq _ _) Hlast).
Qed.

Lemma lead_ascii b : b < 128 -> Utf8.lead b = ([b], Utf8.initial).
Proof. intros Hb. unfold Utf8.lead. by decide_tests. Qed.

Lemma lead_two q :
  2 <= q < 32 ->
  Utf8.lead (192 + q) = ([], Utf8.mkDecoder q 0 1 0x80 0xBF).
Proof.
  intros Hq. unfold Utf8.lead. decide_tests.
  change 0x1F with (N.ones 5). rewrite land_low. change (2 ^ 5) with 32.
  by replace ((192 + q) mod 32) with q by nlia.
Qed.

Lemma lead_three q :
  q < 16 ->
  Utf8.lead (224 + q) =
    ([], Utf8.mkDecoder q 0 2
           (if q =? 0 then 0xA0 else 0x80) (if q =? 13 then 0x9F else 0xBF)).
Proof.
  intros Hq. unfold Utf8.lead.
  change 0xF with (N.ones 4). rewrite land_low. change (2 ^ 4) with 16.
  replace ((224 + q) mod 16) with q by nlia.
  destruct (N.eqb_spec q 0) as [->|H0]; [done|].
  destruct (N.eqb_spec q 13) as [->|H13]; [done|].
  by decide_tests.
Qed.

Lemma lead_four q :
  q < 5 ->
  Utf8.lead (240 + q) =
    ([], Utf8.mkDecoder q 0 3
           (if q =? 0 then 0x90 else 0x80) (if q =? 4 then 0x8F else 0xBF)).
Proof.
  intros Hq. unfold Utf8.lead.
  change 0x7 with (N.ones 3). rewrite land_low. change (2 ^ 3) with 8.
  replace ((240 + q) mod 8) with q by nlia.
  destruct (N.eqb_spec q 0) as [->|H0]; [done|].
  destruct (N.eqb_spec q 4) as [->|H4]; [done|].
  by decide_tests.
Qed.

End Bits.

Section RoundTrip.

Local Open Scope N_scope.

(** Decoding the bytes of one scalar value gives the scalar value back and
    leaves the decoder ready for the next byte. *)
Lemma decode_encoded_code_point cp rest :
  scalar_value cp ->
  Utf8.decode_from Utf8.initial
    (map Byte.to_N (Utf8.encode_code_point cp) ++ rest) =
  cp :: Utf8.decode_from Utf8.initial rest.
Proof.
  unfold scalar_value. intros Hcp.
  rewrite encode_code_point_bytes by lia.
  destruct (N.ltb_spec cp 0x80) as [H1|H1].
  { cbn [app]. rewrite decode_from_initial, lead_ascii by done. done. }
  destruct (N.ltb_spec cp 0x800) as [H2|H2].
  { cbn [app]. rewrite decode_from_initial, lead_two by nlia.
    cbn [fst snd app].
    rewrite decode_finish by nlia.
    f_equal. nlia. }
  destruct (N.ltb_spec cp 0x10000) as [H3|H3].
  { cbn [app]. rewrite decode_from_initial, lead_three by nlia.
    cbn [fst snd app].
    rewrite decode_continue;
      [ | lia | nlia
        | destruct (N.eqb_spec (cp / 4096) 0); nlia
        | destruct (N.eqb_spec (cp / 4096) 13); nlia
        | lia ].
    rewrite decode_finish by nlia.
    f_equal. nlia. }
  cbn [app]. rewrite decode_from_initial, lead_four by nlia.
  cbn [fst snd app].
  rewrite decode_continue;
    [ | lia | nlia
      | destruct (N.eqb_spec (cp / 262144) 0); nlia
      | destruct (N.eqb_spec (cp / 262144) 4); nlia
      | lia ].
  rewrite decode_continue by nlia.
  rewrite decode_finish by nlia.
  f_equal. nlia.
Qed.

Lemma encode_cons cp s :
  Utf8.encode (cp :: s) = Utf8.encode_code_point cp ++ Utf8.encode s.
Proof. done. Qed.

Lemma decode_from_encode s :
  is_text s ->
  Utf8.decode_from Utf8.initial (map Byte.to_N (Utf8.encode s)) = s.
Proof.
  induction 1 as [|cp s Hcp _ IH]; [done|].
  rewrite encode_cons, map_app, decode_encoded_code_point by done.
  by rewrite IH.
Qed.

End RoundTrip.

Section ByteOrderMark.

Local Open Scope N_scope.

Lemma strip_BOM_first b l : b <> 0xEF -> Utf8.strip_BOM (b :: l) = b :: l.
Proof.
  intros Hne. unfold Utf8.strip_BOM.
  destruct b as [|p]; [done|].
  do 8 (destruct p as [p|p|]; try done).
Qed.

Lemma strip_BOM_second b l :
  b <> 0xBB -> Utf8.strip_BOM (0xEF :: b :: l) = 0xEF :: b :: l.
Proof.
  intros Hne. unfold Utf8.strip_BOM.
  destruct b as [|p]; [done|].
  do 8 (destruct p as [p|p|]; try done).
Qed.

Lemma strip_BOM_third b l :
  b <> 0xBF -> Utf8.strip_BOM (0xEF :: 0xBB :: b :: l) = 0xEF :: 0xBB :: b :: l.
Proof.
  intros Hne. unfold Utf8.strip_BOM.
  destruct b as [|p]; [done|].
  do 8 (destruct p as [p|p|]; try done).
Qed.

(** The bytes of a scalar value other than U+FEFF do not begin with the
    byte order mark. *)
Lemma strip_BOM_encoded cp rest :
  scalar_value cp -> cp <> BOM ->
  Utf8.strip_BOM (map Byte.to_N (Utf8.encode_code_point cp) ++ rest) =
    map Byte.to_N (Utf8.encode_code_point cp) ++ rest.
Proof.
  unfold scalar_value, BOM. intros Hcp Hne.
  rewrite encode_code_point_bytes by lia.
  destruct (N.ltb_spec cp 0x80) as [H1|H1].
  { cbn [app]. apply strip_BOM_first. lia. }
  destruct (N.ltb_spec cp 0x800) as [H2|H2].
  { cbn [app]. apply strip_BOM_first. nlia. }
  destruct (N.ltb_spec cp 0x10000) as [H3|H3].
  { cbn [app].
    destruct (N.eq_dec (224 + cp / 4096) 0xEF) as [E1|E1];
      [rewrite E1 | by apply strip_BOM_first].
    destruct (N.eq_dec (128 + (cp / 64) mod 64) 0xBB) as [E2|E2];
      [rewrite E2 | by apply strip_BOM_second].
    apply strip_BOM_third. nlia. }
  cbn [app]. apply strip_BOM_first. nlia.
Qed.

(** Encoding a text and decoding it as [Response.text()] does: the text
    comes back, except that a byte order mark at its start is dropped. *)
Lemma decode_encode s :
  is_text s ->
  (no_leading_BOM s -> Utf8.decode (Utf8.encode s) = s) /\
  (forall s', s = BOM :: s' -> Utf8.decode (Utf8.encode s) = s').
Proof.
  intros Htext. split.
  - intros Hbom. unfold Utf8.decode.
    destruct Htext as [|cp s Hcp Hs]; [done|].
    rewrite encode_cons, map_app, strip_BOM_encoded by done.
    rewrite decode_encoded_code_point by done.
    f_equal. by apply decode_from_encode.
  - intros s' ->. apply Forall_cons in Htext as [_ Hs'].
    unfold Utf8.decode. rewrite encode_cons, map_app.
    change (map Byte.to_N (Utf8.encode_code_point BOM))
      with [0xEF; 0xBB; 0xBF].
    cbn [app Utf8.strip_BOM]. by apply decode_from_encode.
Qed.

End ByteOrderMark.

(** [compressResponse] on text.  When the body is the UTF-8 encoding of a
    text that does not start with a byte order mark, compression is
    lossless: the compressed body decompresses to the body.  When the text
    starts with a byte order mark, its three bytes are dropped: the
    compressed body decompresses to the encoding of the rest. *)
Theorem compressResponse_on_text
        (gzip gunzip : list byte -> list byte) (response : Response) s :
  (forall bytes, gunzip (gzip bytes) = bytes) ->
  is_text s ->
  body response = Utf8.encode s ->
  (no_leading_BOM s ->
   gunzip (body (compressResponse gzip response)) = body response) /\
  (forall s', s = BOM :: s' ->
     body response = [xef; xbb; xbf] ++ Utf8.encode s' /\
     gunzip (body (compressResponse gzip response)) = Utf8.encode s').
Proof.
  intros Hinv Htext Hbody.
  destruct (decode_encode s Htext) as [Hplain Hmark].
  unfold compressResponse, new_Response_bytes, text. cbn [body].
  rewrite Hinv, Hbody. split.
  - intros Hbom. by rewrite Hplain.
  - intros s' Hs. rewrite (Hmark s' Hs). split; [|done]. by subst s.
Qed.

Lemma compressResponse_on_text_witness :
  framing_gunzip (body (compressResponse framing_gzip text_response)) =
    body text_response.
Proof.
  apply (proj1 (compressResponse_on_text framing_gzip framing_gunzip
                  text_response sample_text
                  ltac:(intros bytes; reflexivity)
                  ltac:(repeat (apply Forall_cons; split;
                                [unfold scalar_value; lia|]);
                        apply Forall_nil; exact I)
                  ltac:(reflexivity))).
  unfold no_leading_BOM, sample_text, BOM. lia.
Defined.

(** ** More properties at concrete inputs *)

Lemma checkRateLimit_frame_witness :
  (checkRateLimit 100 "203.0.113.7" full_table).2 !! "198.51.100.2" =
    full_table !! "198.51.100.2".
Proof.
  apply (proj2 (checkRateLimit_frame 100 "203.0.113.7" full_table)).
  discriminate.
Defined.

Lemma remaining_in_range_witness :
  Forall (fun d => 0 <= remaining d <= RATE_LIMIT - 1 /\
                   (allowed d = false -> remaining d = 0))
         (run [Call 0 "203.0.113.7"; Sweep 40000; Call 40001 "203.0.113.7"] ∅).1.
Proof.
  apply (remaining_in_range
           [Call 0 "203.0.113.7"; Sweep 40000; Call 40001 "203.0.113.7"]).
Defined.

Lemma chain_lookups_by_family_witness :
  getReferralKey 56 = Return DEBRIDGE_REFERRAL_CODE /\
  getAffiliateFeeRecipient 7565164 = Return SOLANA_PUBLIC_KEY.
Proof.
  split.
  - apply (proj2 (proj1 (chain_lookups_by_family 56))).
    simpl. lia.
  - apply (proj2 (proj1 (proj2 (proj2 (proj2 (chain_lookups_by_family 7565164)))))).
    simpl. lia.
Defined.

(** ** The handler on Deno *)

Lemma handler_on_Deno gzip w req (st : Store) :
  on_Deno w ->
  handler gzip w req st = (Throw readDir_next_TypeError, st).
Proof. unfold on_Deno, handler. by intros ->. Qed.

Lemma serve_on_Deno gzip (reqs : list (World * Request)) :
  forall st : Store,
    Forall (fun wr => on_Deno wr.1) reqs ->
    serve gzip reqs st =
      (replicate (length reqs) (Throw readDir_next_TypeError), st).
Proof.
  induction reqs as [|[w req] reqs IH]; intros st Hall; [done|].
  apply Forall_cons in Hall as [Hw Hall]. cbn [fst] in Hw.
  cbn [serve length replicate].
  rewrite (handler_on_Deno gzip w req st Hw), (IH st Hall). done.
Qed.

(** C2 fails at the handler.  On Deno every request throws at the
    directory probe, before the limiter is asked: whatever requests are
    served, and however many of one identity fall inside one window, each
    of them throws the [TypeError], none is answered (so none with status
    429), and the table is left as it was. *)
Theorem over_limit_requests_are_not_answered
        gzip (reqs : list (World * Request)) (st : Store) :
  Forall (fun wr => on_Deno wr.1) reqs ->
  serve gzip reqs st =
    (replicate (length reqs) (Throw readDir_next_TypeError), st) /\
  (forall k outcome,
     (serve gzip reqs st).1 !! k = Some outcome ->
     outcome = Throw readDir_next_TypeError) /\
  (forall k resp, (serve gzip reqs st).1 !! k <> Some (Return resp)).
Proof.
  intros Hall. rewrite (serve_on_Deno gzip reqs st Hall). cbn [fst].
  split; [done|].
  assert (Hlookup : forall k outcome,
    replicate (length reqs) (Throw readDir_next_TypeError) !! k = Some outcome ->
    outcome = @Throw Response readDir_next_TypeError).
  { intros k outcome Hk. by apply lookup_replicate in Hk as [-> _]. }
  split; [exact Hlookup|].
  intros k resp Hk. apply Hlookup in Hk. discriminate Hk.
Qed.

Lemma over_limit_requests_are_not_answered_witness :
  serve framing_gzip
    ((deno_world 1000, get "/") :: replicate 51 (deno_world 2000, get "/")) ∅ =
    (replicate
       (length ((deno_world 1000, get "/") ::
                replicate 51 (deno_world 2000, get "/")))
       (Throw readDir_next_TypeError), ∅) /\
  (forall k outcome,
     (serve framing_gzip
        ((deno_world 1000, get "/") :: replicate 51 (deno_world 2000, get "/"))
        ∅).1 !! k = Some outcome ->
     outcome = Throw readDir_next_TypeError) /\
  (forall k resp,
     (serve framing_gzip
        ((deno_world 1000, get "/") :: replicate 51 (deno_world 2000, get "/"))
        ∅).1 !! k <> Some (Return resp)).
Proof.
  apply (over_limit_requests_are_not_answered framing_gzip
           ((deno_world 1000, get "/") :: replicate 51 (deno_world 2000, get "/"))
           ∅).
  apply Forall_cons. split; [reflexivity|].
  apply Forall_replicate. reflexivity.
Defined.



(** ** Past the probe, at concrete inputs *)

Lemma error_responses_lack_rate_limit_headers_witness :
  lacks_rate_limit_headers (new_Response (Utf8.of_literal "Server Error") 500 ∅).
Proof.
  apply (error_responses_lack_rate_limit_headers framing_gzip
           (empty_disk 1000) (get "/") ∅
           (new_Response (Utf8.of_literal "Server Error") 500 ∅)).
  - reflexivity.
  - left. reflexivity.
Defined.
